(** * generate-from-docs: mock handlers and type declarations from an API list

    A shallow embedding of [scripts/generate-from-docs.js].  The script's pure
    core ([jsonToTypeScript], [generateTypeName], [pathToFunctionName],
    [generateTypes], [generateHandlers]) is translated function by function;
    [main] is modelled from the parsed specification object on, its file and
    console effects reduced to the outcome it reports. *)

From Stdlib Require Import String Ascii List Bool ZArith Lia.
From Stdlib Require Import Numbers.DecimalString.
Import ListNotations.
Set Warnings "-register-all".
Open Scope list_scope.
Open Scope string_scope.

(** ** JavaScript strings

    Strings are sequences of code units, here [ascii].  Case mapping is the
    one JavaScript performs on the ASCII letters; URL path templates and HTTP
    method names are ASCII. *)
Module JsString.

Definition nl : string := String "010" EmptyString.

Definition isLower (c : ascii) : bool :=
  (("a" <=? c) && (c <=? "z"))%char.

Definition isUpper (c : ascii) : bool :=
  (("A" <=? c) && (c <=? "Z"))%char.

Definition upperChar (c : ascii) : ascii :=
  if isLower c then ascii_of_nat (nat_of_ascii c - 32) else c.

Definition lowerChar (c : ascii) : ascii :=
  if isUpper c then ascii_of_nat (nat_of_ascii c + 32) else c.

Fixpoint mapChars (f : ascii -> ascii) (s : string) : string :=
  match s with
  | EmptyString => EmptyString
  | String c r => String (f c) (mapChars f r)
  end.

(** [s.toUpperCase()] and [s.toLowerCase()]. *)
Definition toUpperCase (s : string) : string := mapChars upperChar s.
Definition toLowerCase (s : string) : string := mapChars lowerChar s.

(** [s.charAt(0)]: the first code unit as a string, the empty string when
    there is none. *)
Definition charAt0 (s : string) : string :=
  match s with
  | EmptyString => EmptyString
  | String c _ => String c EmptyString
  end.

(** [s.slice(1)]. *)
Definition slice1 (s : string) : string :=
  match s with
  | EmptyString => EmptyString
  | String _ r => r
  end.

(** [s.startsWith(p)]. *)
Fixpoint startsWith (s p : string) : bool :=
  match p with
  | EmptyString => true
  | String a p' =>
      match s with
      | EmptyString => false
      | String b s' => Ascii.eqb a b && startsWith s' p'
      end
  end.

(** [s.includes(c)] for a one-character needle. *)
Fixpoint includesChar (s : string) (c : ascii) : bool :=
  match s with
  | EmptyString => false
  | String b r => Ascii.eqb b c || includesChar r c
  end.

Fixpoint dropChars (n : nat) (s : string) : string :=
  match n, s with
  | O, _ => s
  | S n', String _ r => dropChars n' r
  | S _, EmptyString => EmptyString
  end.

(** [s.replace(/^p/, '')] for a literal pattern [p] anchored at the start. *)
Definition removePrefix (p s : string) : string :=
  if startsWith s p then dropChars (String.length p) s else s.

(** [s.replace(/a/g, b)] for one-character [a] and [b]. *)
Definition replaceChar (a b : ascii) (s : string) : string :=
  mapChars (fun c => if Ascii.eqb c a then b else c) s.

(** [s.replace(/a|b/g, '')] for one-character alternatives. *)
Fixpoint removeChars (a b : ascii) (s : string) : string :=
  match s with
  | EmptyString => EmptyString
  | String c r =>
      if Ascii.eqb c a || Ascii.eqb c b then removeChars a b r
      else String c (removeChars a b r)
  end.

(** [s.split(sep)] for a one-character separator: never the empty list, the
    empty string splits into one empty part. *)
Fixpoint split (sep : ascii) (s : string) : list string :=
  match s with
  | EmptyString => [EmptyString]
  | String c r =>
      if Ascii.eqb c sep then EmptyString :: split sep r
      else match split sep r with
           | [] => [String c EmptyString]
           | p :: ps => String c p :: ps
           end
  end.

(** [parts.join(sep)]. *)
Fixpoint join (sep : string) (parts : list string) : string :=
  match parts with
  | [] => EmptyString
  | [p] => p
  | p :: ps => p ++ sep ++ join sep ps
  end.

(** ['  '.repeat(n)] and the like. *)
Fixpoint repeat (s : string) (n : nat) : string :=
  match n with
  | O => EmptyString
  | S n' => s ++ repeat s n'
  end.

(** [list.includes(s)] for a list of strings. *)
Definition includes (l : list string) (s : string) : bool :=
  existsb (String.eqb s) l.

(** Decimal rendering of an integer, as [String(n)] gives it. *)
Definition ofZ (n : Z) : string := NilZero.string_of_int (Z.to_int n).

End JsString.
Import JsString.

(** ** Sample values

    What [JSON.parse] produces, plus [VUndefined] for a property that is
    absent.  An object carries its entries, one per key, in the order
    [Object.entries] enumerates them.  Numbers are the integer samples that
    print in plain decimal: the script only tests a number for truthiness and
    prints it. *)
Inductive value : Type :=
| VUndefined
| VNull
| VBool (b : bool)
| VNum (n : Z)
| VStr (s : string)
| VArr (items : list value)
| VObj (entries : list (string * value)).

(** JavaScript truthiness, as [if (v)] and [v && ...] test it. *)
Definition truthy (v : value) : bool :=
  match v with
  | VUndefined | VNull => false
  | VBool b => b
  | VNum n => negb (n =? 0)%Z
  | VStr s => negb (s =? "")
  | VArr _ | VObj _ => true
  end.

(** [Array.isArray(v)]. *)
Definition isArray (v : value) : bool :=
  match v with
  | VArr _ => true
  | _ => false
  end.

(** [v[key]] on a parsed value: the property when [v] is an object that has
    it, [undefined] otherwise. *)
Fixpoint lookupEntry (key : string) (entries : list (string * value)) : value :=
  match entries with
  | [] => VUndefined
  | (k, v) :: rest => if k =? key then v else lookupEntry key rest
  end.

Definition getProp (v : value) (key : string) : value :=
  match v with
  | VObj entries => lookupEntry key entries
  | _ => VUndefined
  end.

(** ** The type inferencer: [jsonToTypeScript(value, indent = 0)] *)
Fixpoint jsonToTypeScript (v : value) (indent : nat) : string :=
  let spaces := repeat "  " indent in
  match v with
  | VNull => "null"
  | VArr items =>
      match items with
      | [] => "any[]"
      | first :: _ =>
          let itemType := jsonToTypeScript first indent in
          if startsWith itemType "{" then itemType ++ "[]"
          else "(" ++ itemType ++ ")[]"
      end
  | VObj entries =>
      match entries with
      | [] => "Record<string, any>"
      | _ :: _ =>
          let props :=
            join nl
              (map (fun entry : string * value =>
                      let (key, val) := entry in
                      spaces ++ "  " ++ key ++ ": "
                        ++ jsonToTypeScript val (indent + 1))
                   entries) in
          "{" ++ nl ++ props ++ nl ++ spaces ++ "}"
      end
  | VStr _ => "string"
  | VNum _ => "number"
  | VBool _ => "boolean"
  | VUndefined => "any"
  end.

(** ** The name deriver: [pathToFunctionName(path)] and
    [generateTypeName(path, suffix)] *)

(** [part => part.charAt(0).toUpperCase() + part.slice(1)]. *)
Definition capitalize (part : string) : string :=
  toUpperCase (charAt0 part) ++ slice1 part.

Definition pathToFunctionName (path : string) : string :=
  join ""
    (map capitalize
       (split "_"
          (removeChars "{" "}"
             (replaceChar "/" "_"
                (removePrefix "/api/" path))))).

Definition generateTypeName (path suffix : string) : string :=
  let parts :=
    join ""
      (map capitalize
         (split "_"
            (removeChars "{" "}"
               (replaceChar "/" "_"
                  (removePrefix "/api/" path))))) in
  parts ++ suffix.

(** ** Exceptions

    The two errors a run can end with once the specification is parsed: the
    script's own format error, and a [TypeError] the runtime throws (a string
    method called on something that is no string, a property read from
    [null], an object that cannot be converted to a string). *)
Inductive failure : Type :=
| InvalidFormat
| TypeError.

(** How an evaluation ends: with a value, or by throwing. *)
Inductive completion (A : Type) : Type :=
| Normal (x : A)
| Throws (e : failure).

Arguments Normal {A} x.
Arguments Throws {A} e.

Definition mapNormal {A B : Type} (f : A -> B) (c : completion A)
    : completion B :=
  match c with
  | Normal x => Normal (f x)
  | Throws e => Throws e
  end.

(** [list.map(callback)] for a callback that may throw: the elements are
    visited in order and the first exception ends the call. *)
Fixpoint mapThrowing {A B : Type} (f : A -> completion B) (l : list A)
    : completion (list B) :=
  match l with
  | [] => Normal []
  | x :: rest =>
      match f x with
      | Throws e => Throws e
      | Normal y =>
          match mapThrowing f rest with
          | Throws e => Throws e
          | Normal ys => Normal (y :: ys)
          end
      end
  end.

(** ** Built-ins the handler templates call *)
Module JsBuiltin.

Definition dquote : string := String "034" EmptyString.
Definition backslash : string := String "092" EmptyString.

Definition hexDigit (n : nat) : string :=
  match n with
  | 0 => "0" | 1 => "1" | 2 => "2" | 3 => "3" | 4 => "4" | 5 => "5"
  | 6 => "6" | 7 => "7" | 8 => "8" | 9 => "9" | 10 => "a" | 11 => "b"
  | 12 => "c" | 13 => "d" | 14 => "e" | _ => "f"
  end.

Definition escapeChar (c : ascii) : string :=
  let n := nat_of_ascii c in
  if Nat.eqb n 34 then backslash ++ dquote
  else if Nat.eqb n 92 then backslash ++ backslash
  else if Nat.eqb n 8 then backslash ++ "b"
  else if Nat.eqb n 12 then backslash ++ "f"
  else if Nat.eqb n 10 then backslash ++ "n"
  else if Nat.eqb n 13 then backslash ++ "r"
  else if Nat.eqb n 9 then backslash ++ "t"
  else if Nat.ltb n 32 then
    backslash ++ "u00" ++ hexDigit (n / 16) ++ hexDigit (n mod 16)
  else String c EmptyString.

Fixpoint escapeChars (s : string) : string :=
  match s with
  | EmptyString => EmptyString
  | String c r => escapeChar c ++ escapeChars r
  end.

(** [QuoteJSONString]. *)
Definition quote (s : string) : string := dquote ++ escapeChars s ++ dquote.

(** The bracketed, indented layout [JSON.stringify] gives a non-empty array
    or object when a gap is set. *)
Definition wrap (opening closing gap stepback indent : string)
    (partial : list string) : string :=
  match partial with
  | [] => opening ++ closing
  | _ :: _ =>
      if gap =? "" then opening ++ join "," partial ++ closing
      else opening ++ nl ++ indent
             ++ join ("," ++ nl ++ indent) partial
             ++ nl ++ stepback ++ closing
  end.

(** [SerializeJSONProperty]: [None] is JavaScript's [undefined] result. *)
Fixpoint serialize (gap indent : string) (v : value) : option string :=
  match v with
  | VUndefined => None
  | VNull => Some "null"
  | VBool b => Some (if b then "true" else "false")
  | VNum n => Some (ofZ n)
  | VStr s => Some (quote s)
  | VArr items =>
      let inner := indent ++ gap in
      Some (wrap "[" "]" gap indent inner
              (map (fun item =>
                      match serialize gap inner item with
                      | Some s => s
                      | None => "null"
                      end)
                   items))
  | VObj entries =>
      let inner := indent ++ gap in
      Some (wrap "{" "}" gap indent inner
              (flat_map (fun entry : string * value =>
                           let (key, val) := entry in
                           match serialize gap inner val with
                           | Some s =>
                               [quote key ++ ":"
                                  ++ (if gap =? "" then "" else " ") ++ s]
                           | None => []
                           end)
                        entries))
  end.

(** [JSON.stringify(v, null, n)] for a number of spaces [n]. *)
Definition JSON_stringify (v : value) (n : nat) : option string :=
  serialize (repeat " " (Nat.min n 10)) "" v.

(** An optional string spliced into a template literal. *)
Definition splice (o : option string) : string :=
  match o with
  | Some s => s
  | None => "undefined"
  end.

(** The texts of the elements of an array joined by [sep], when each has
    one. *)
Fixpoint joinTexts (sep : string) (texts : list (option string))
    : option string :=
  match texts with
  | [] => Some ""
  | first :: rest =>
      match first, joinTexts sep rest with
      | Some text, Some others =>
          Some (match rest with
                | [] => text
                | _ :: _ => text ++ sep ++ others
                end)
      | _, _ => None
      end
  end.

(** Whether an object has an own property of this name. *)
Definition hasOwnProperty (entries : list (string * value)) (key : string)
    : bool :=
  existsb (fun entry : string * value => fst entry =? key) entries.

(** [ToString], as a template literal applies it to a parsed value; [None]
    where it throws a [TypeError].  An object converts through the
    [toString] it inherits, unless an own [toString] property, which is
    parsed data and no function, hides it: then the conversion fails.  An
    array joins the conversions of its elements, [null] and [undefined]
    counting as empty. *)
Fixpoint toString (v : value) : option string :=
  match v with
  | VUndefined => Some "undefined"
  | VNull => Some "null"
  | VBool b => Some (if b then "true" else "false")
  | VNum n => Some (ofZ n)
  | VStr s => Some s
  | VArr items =>
      joinTexts ","
        (map (fun item =>
                match item with
                | VUndefined | VNull => Some ""
                | _ => toString item
                end)
             items)
  | VObj entries =>
      if hasOwnProperty entries "toString" then None
      else Some "[object Object]"
  end.

Definition isWordChar (c : ascii) : bool :=
  isLower c || isUpper c || (("0" <=? c) && (c <=? "9"))%char
  || Ascii.eqb c "_".

(** [s.replace(/\{(\w+)\}/g, ':$1')], one pass.  [pending] holds the word
    characters read since an opening brace that may still become a
    placeholder. *)
Fixpoint replaceParams (pending : option string) (s : string) : string :=
  match s with
  | EmptyString =>
      match pending with
      | Some w => "{" ++ w
      | None => EmptyString
      end
  | String c r =>
      match pending with
      | None =>
          if Ascii.eqb c "{" then replaceParams (Some EmptyString) r
          else String c (replaceParams None r)
      | Some w =>
          if isWordChar c then
            replaceParams (Some (w ++ String c EmptyString)) r
          else if Ascii.eqb c "}" && negb (w =? "") then
            ":" ++ w ++ replaceParams None r
          else if Ascii.eqb c "{" then
            "{" ++ w ++ replaceParams (Some EmptyString) r
          else "{" ++ w ++ String c (replaceParams None r)
      end
  end.

End JsBuiltin.
Import JsBuiltin.

(** ** Endpoint descriptors

    One element of [spec.apis] after destructuring.  [method] and [path] are
    strings (the script calls string methods on both); the other three
    properties are arbitrary parsed values, [VUndefined] when absent. *)
Record api : Type := mkApi {
  method : string;
  path : string;
  requestBody : value;
  response : value;
  statusCode : value
}.

(** ** Mock handlers: [generateHandlers(apis)] *)

(** The callback of [apis.map].  It returns a handler text, or nothing
    ([None], the [undefined] of a callback no branch of which applies), or
    throws where the status code cannot be converted to a string. *)
Definition handler (a : api) : completion (option string) :=
  let statusCode := match statusCode a with
                    | VUndefined => VNum 200
                    | sc => sc
                    end in
  let methodLower := toLowerCase (method a) in
  let pathWithParams := replaceParams None (path a) in
  if methodLower =? "get" then
    if includesChar (path a) "{" || includesChar (path a) ":" then
      Normal
        (Some ("  // " ++ method a ++ " " ++ path a ++ nl
               ++ "  http." ++ methodLower ++ "('" ++ pathWithParams
               ++ "', ({ params }) => {" ++ nl
               ++ "    return HttpResponse.json("
               ++ splice (JSON_stringify (response a) 2) ++ ")" ++ nl
               ++ "  })"))
    else
      Normal
        (Some ("  // " ++ method a ++ " " ++ path a ++ nl
               ++ "  http." ++ methodLower ++ "('" ++ path a
               ++ "', () => {" ++ nl
               ++ "    return HttpResponse.json("
               ++ splice (JSON_stringify (response a) 2) ++ ")" ++ nl
               ++ "  })"))
  else if includes ["post"; "put"; "patch"] methodLower then
    let bodyType :=
      if truthy (requestBody a)
      then "as " ++ generateTypeName (path a) "Request" else "" in
    match toString statusCode with
    | None => Throws TypeError
    | Some status =>
        Normal
          (Some ("  // " ++ method a ++ " " ++ path a ++ nl
                 ++ "  http." ++ methodLower ++ "('" ++ pathWithParams
                 ++ "', async ({ params, request }) => {" ++ nl
                 ++ "    "
                 ++ (if truthy (requestBody a)
                     then "const body = await request.json() " ++ bodyType
                     else "") ++ nl
                 ++ "    return HttpResponse.json(" ++ nl
                 ++ "      " ++ splice (JSON_stringify (response a) 6) ++ ","
                 ++ nl
                 ++ "      { status: " ++ status ++ " }" ++ nl
                 ++ "    )" ++ nl
                 ++ "  })"))
    end
  else if methodLower =? "delete" then
    match toString statusCode with
    | None => Throws TypeError
    | Some status =>
        Normal
          (Some ("  // " ++ method a ++ " " ++ path a ++ nl
                 ++ "  http." ++ methodLower ++ "('" ++ pathWithParams
                 ++ "', ({ params }) => {" ++ nl
                 ++ "    return HttpResponse.json(" ++ nl
                 ++ "      " ++ splice (JSON_stringify (response a) 6) ++ ","
                 ++ nl
                 ++ "      { status: " ++ status ++ " }" ++ nl
                 ++ "    )" ++ nl
                 ++ "  })"))
    end
  else Normal None.

(** What [Array.prototype.join] makes of an element: [undefined] joins as
    the empty string. *)
Definition joined (o : option string) : string :=
  match o with
  | Some s => s
  | None => ""
  end.

Definition generateHandlers (apis : list api) : completion string :=
  let imports := "import { http, HttpResponse } from 'msw'" ++ nl ++ nl in
  match mapThrowing handler apis with
  | Throws e => Throws e
  | Normal results =>
      let handlers := join ("," ++ nl ++ nl) (map joined results) in
      Normal
        (imports ++ "// Auto-generated handlers from API specification" ++ nl
           ++ "export const handlers = [" ++ nl
           ++ handlers ++ nl
           ++ "]" ++ nl)
  end.

(** ** The Map of named types

    A JavaScript [Map] from type name to sample value: [forEach] visits the
    keys in the order they were first set, [set] on a key that is there keeps
    its place. *)
Module TypeMap.

Definition t : Type := list (string * value).

Definition empty : t := [].

Fixpoint get (types : t) (name : string) : option value :=
  match types with
  | [] => None
  | (k, v) :: rest => if k =? name then Some v else get rest name
  end.

Definition has (types : t) (name : string) : bool :=
  match get types name with
  | Some _ => true
  | None => false
  end.

Fixpoint set (types : t) (name : string) (v : value) : t :=
  match types with
  | [] => [(name, v)]
  | (k, w) :: rest =>
      if k =? name then (k, v) :: rest else (k, w) :: set rest name v
  end.

End TypeMap.

(** ** Type declarations: [generateTypes(apis)] *)

(** The callback of the first [apis.forEach]. *)
Definition registerTypes (types : TypeMap.t) (a : api) : TypeMap.t :=
  let types :=
    if truthy (requestBody a)
       && includes ["post"; "put"; "patch"] (toLowerCase (method a))
    then
      let requestTypeName := generateTypeName (path a) "Request" in
      if negb (TypeMap.has types requestTypeName)
      then TypeMap.set types requestTypeName (requestBody a)
      else types
    else types in
  let responseTypeName := generateTypeName (path a) "Response" in
  if negb (TypeMap.has types responseTypeName)
  then TypeMap.set types responseTypeName (response a)
  else types.

Definition collectTypes (apis : list api) : TypeMap.t :=
  fold_left registerTypes apis TypeMap.empty.

(** The text the callback of [types.forEach] appends. *)
Definition declaration (entry : string * value) : string :=
  let (typeName, v) := entry in
  let typeScript := jsonToTypeScript v 0 in
  if isArray v
  then "export type " ++ typeName ++ " = " ++ typeScript ++ nl ++ nl
  else "export interface " ++ typeName ++ " " ++ typeScript ++ nl ++ nl.

(** The text the callback of the second [apis.forEach] appends. *)
Definition endpointEntry (a : api) : string :=
  let requestTypeName := generateTypeName (path a) "Request" in
  let responseTypeName := generateTypeName (path a) "Response" in
  let functionName := pathToFunctionName (path a) in
  if truthy (requestBody a)
  then "  " ++ toLowerCase (method a) ++ functionName
         ++ ": (body: " ++ requestTypeName ++ ") => Promise<"
         ++ responseTypeName ++ ">" ++ nl
  else "  " ++ toLowerCase (method a) ++ functionName
         ++ ": () => Promise<" ++ responseTypeName ++ ">" ++ nl.

Definition generateTypes (apis : list api) : string :=
  let types := collectTypes apis in
  let typeDefinitions :=
    "// Auto-generated TypeScript types from API specification" ++ nl ++ nl in
  let typeDefinitions :=
    fold_left (fun acc entry => acc ++ declaration entry)
      types typeDefinitions in
  let typeDefinitions := typeDefinitions ++ "// API function types" ++ nl in
  let typeDefinitions :=
    typeDefinitions ++ "export interface ApiEndpoints {" ++ nl in
  let typeDefinitions :=
    fold_left (fun acc a => acc ++ endpointEntry a) apis typeDefinitions in
  typeDefinitions ++ "}" ++ nl.

(** ** [main], from the parsed specification on *)

(** A run ends in [process.exit(1)] with the error that was caught, or with
    the two documents written. *)
Inductive outcome : Type :=
| Exit1 (why : failure)
| Generated (handlersCode typesCode : string).

(** Destructuring one element of [spec.apis]; [None] where a later
    [method.toLowerCase()] or [path.replace(...)] throws. *)
Definition destructure (v : value) : option api :=
  match v with
  | VUndefined | VNull => None
  | _ =>
      match getProp v "method", getProp v "path" with
      | VStr m, VStr p =>
          Some (mkApi m p (getProp v "requestBody") (getProp v "response")
                  (getProp v "statusCode"))
      | _, _ => None
      end
  end.

Fixpoint destructureAll (items : list value) : option (list api) :=
  match items with
  | [] => Some []
  | v :: rest =>
      match destructure v, destructureAll rest with
      | Some a, Some l => Some (a :: l)
      | _, _ => None
      end
  end.

Definition main (spec : value) : outcome :=
  match spec with
  | VUndefined | VNull => Exit1 TypeError
  | _ =>
      match getProp spec "apis" with
      | VArr items =>
          match destructureAll items with
          | Some apis =>
              match generateHandlers apis with
              | Throws e => Exit1 e
              | Normal handlersCode =>
                  Generated handlersCode (generateTypes apis)
              end
          | None => Exit1 TypeError
          end
      | _ => Exit1 InvalidFormat
      end
  end.

(** ** Vocabulary of the statements *)

(** The array type over an item type text. *)
Definition arrayOf (itemType : string) : string :=
  if startsWith itemType "{" then itemType ++ "[]"
  else "(" ++ itemType ++ ")[]".

(** One field line of a record type written at nesting depth [indent]. *)
Definition fieldLine (indent : nat) (entry : string * value) : string :=
  repeat "  " indent ++ "  " ++ fst entry ++ ": "
    ++ jsonToTypeScript (snd entry) (indent + 1).

(** The kind structure of a sample: every primitive replaced by a fixed
    representative of its kind, keys, their order and array lengths kept. *)
Fixpoint shape (v : value) : value :=
  match v with
  | VUndefined => VUndefined
  | VNull => VNull
  | VBool _ => VBool false
  | VNum _ => VNum 0
  | VStr _ => VStr ""
  | VArr items => VArr (map shape items)
  | VObj entries =>
      VObj (map (fun entry : string * value =>
                   let (key, val) := entry in (key, shape val))
                entries)
  end.

Definition sameShape (v w : value) : Prop := shape v = shape w.

(** A property is present when reading it does not give [undefined]. *)
Definition present (v : value) : bool :=
  match v with
  | VUndefined => false
  | _ => true
  end.

Definition requestName (a : api) : string :=
  generateTypeName (path a) "Request".

Definition responseName (a : api) : string :=
  generateTypeName (path a) "Response".

(** The name derivation read character by character: braces are dropped, a
    slash or an underscore ends a segment and is dropped, the first character
    kept in a segment is upper-cased and the others are kept as they are. *)
Fixpoint titleCased (atStart : bool) (s : string) : string :=
  match s with
  | EmptyString => EmptyString
  | String c r =>
      if Ascii.eqb c "{" || Ascii.eqb c "}" then titleCased atStart r
      else if Ascii.eqb c "/" || Ascii.eqb c "_" then titleCased true r
      else String (if atStart then upperChar c else c) (titleCased false r)
  end.

Definition nameFragment (path : string) : string :=
  titleCased true (removePrefix "/api/" path).

(** The segments of a path once slashes are separators and braces are gone:
    what [generateTypeName] maps [capitalize] over. *)
Definition segments (s : string) : list string :=
  split "_" (removeChars "{" "}" (replaceChar "/" "_" s)).

(** The last code unit of a string. *)
Fixpoint lastChar (s : string) : option ascii :=
  match s with
  | EmptyString => None
  | String c EmptyString => Some c
  | String _ r => lastChar r
  end.

(** The guarded write both registrations perform:
    [if (!types.has(name)) types.set(name, v)]. *)
Definition setIfAbsent (types : TypeMap.t) (name : string) (v : value)
    : TypeMap.t :=
  if negb (TypeMap.has types name) then TypeMap.set types name v else types.

(** The gate of the request registration. *)
Definition registersRequest (a : api) : bool :=
  truthy (requestBody a)
  && includes ["post"; "put"; "patch"] (toLowerCase (method a)).

(** The methods [generateHandlers] has a branch for. *)
Definition handledMethods : list string :=
  ["get"; "post"; "put"; "patch"; "delete"].

(** The declarations part of the type document. *)
Definition declarations (types : TypeMap.t) : string :=
  join "" (map declaration types).

(** Sample endpoints used in the statements below. *)
Definition getUsers (resp : value) : api :=
  mkApi "GET" "/api/users" VUndefined resp VUndefined.

Definition getPosts : api :=
  mkApi "GET" "/api/posts" VUndefined (VArr []) VUndefined.

Definition optionsUsers : api :=
  mkApi "OPTIONS" "/api/users" (VObj [("name", VStr "x")])
    (VObj [("id", VNum 1)]) VUndefined.

Definition postUsersZeroBody : api :=
  mkApi "POST" "/api/users" (VNum 0) (VObj [("id", VNum 1)]) VUndefined.

Definition getUsersZeroBody : api :=
  mkApi "GET" "/api/users" (VNum 0) (VObj [("id", VNum 1)]) VUndefined.

Definition getUsersWithBody : api :=
  mkApi "GET" "/api/users" (VObj [("q", VStr "x")]) (VObj [("id", VNum 1)])
    VUndefined.

Definition specWithoutResponse : value :=
  VObj [("apis",
         VArr [VObj [("method", VStr "GET"); ("path", VStr "/api/users")]])].

(** An element of [spec.apis] whose [method] and [path] are strings: the
    string methods the script calls on them are there. *)
Definition hasStringMethodAndPath (v : value) : bool :=
  match getProp v "method", getProp v "path" with
  | VStr _, VStr _ => true
  | _, _ => false
  end.

(** Whether every code unit of a string passes a test. *)
Fixpoint allChars (f : ascii -> bool) (s : string) : bool :=
  match s with
  | EmptyString => true
  | String c r => f c && allChars f r
  end.

(** Whether the inferred type of a sample opens with a record: a non-empty
    object, or an array whose first element does. *)
Fixpoint headIsRecord (v : value) : bool :=
  match v with
  | VObj (_ :: _) => true
  | VArr (first :: _) => headIsRecord first
  | _ => false
  end.

(** A text moved one nesting level in: two spaces after every line break. *)
Fixpoint indentLines (s : string) : string :=
  match s with
  | EmptyString => EmptyString
  | String c r =>
      if Ascii.eqb c "010" then String c ("  " ++ indentLines r)
      else String c (indentLines r)
  end.

(** Whether the keys the inferencer prints hold no line break: those of the
    sample itself when it is an object, and of what it recurses into. *)
Fixpoint keysOnOneLine (v : value) : bool :=
  match v with
  | VArr (first :: _) => keysOnOneLine first
  | VObj entries =>
      forallb (fun entry : string * value =>
                 let (key, val) := entry in
                 negb (includesChar key "010") && keysOnOneLine val)
              entries
  | _ => true
  end.

(** The writes one endpoint attempts on the type table, in order. *)
Definition bindingsOf (a : api) : list (string * value) :=
  (if registersRequest a then [(requestName a, requestBody a)] else [])
    ++ [(responseName a, response a)].

(** The first binding of each name, in order of appearance, names in [seen]
    left out. *)
Fixpoint firstBindings (seen : list string) (bindings : list (string * value))
    : list (string * value) :=
  match bindings with
  | [] => []
  | (name, v) :: rest =>
      if includes seen name then firstBindings seen rest
      else (name, v) :: firstBindings (seen ++ [name]) rest
  end.

(** The elements of the generated [handlers] array, joined; throws as the
    callbacks do. *)
Definition handlersBody (apis : list api) : completion string :=
  mapNormal (fun results => join ("," ++ nl ++ nl) (map joined results))
    (mapThrowing handler apis).

(** The status code a handler prints: 200 when the property is absent. *)
Definition statusCodeOrDefault (a : api) : value :=
  match statusCode a with
  | VUndefined => VNum 200
  | sc => sc
  end.

(** The methods whose handler prints the status code. *)
Definition printsStatus (a : api) : bool :=
  includes ["post"; "put"; "patch"; "delete"] (toLowerCase (method a)).

(** Whether the handler callback returns on an endpoint: it prints no status
    code, or the status code converts to a string. *)
Definition handlerCompletes (a : api) : bool :=
  negb (printsStatus a)
  || match toString (statusCodeOrDefault a) with
     | Some _ => true
     | None => false
     end.

(** An endpoint whose status code is an object with an own [toString]. *)
Definition postUsersOddStatus : api :=
  mkApi "POST" "/api/users" VUndefined (VObj [("id", VNum 1)])
    (VObj [("toString", VNum 1)]).

(** The handlers document around the text of its array elements. *)
Definition handlersDocument (body : string) : string :=
  "import { http, HttpResponse } from 'msw'" ++ nl ++ nl
    ++ "// Auto-generated handlers from API specification" ++ nl
    ++ "export const handlers = [" ++ nl
    ++ body ++ nl
    ++ "]" ++ nl.

(** ** Induction over samples *)
Section ValueInduction.

Variable P : value -> Prop.
Hypothesis HUndefined : P VUndefined.
Hypothesis HNull : P VNull.
Hypothesis HBool : forall b, P (VBool b).
Hypothesis HNum : forall n, P (VNum n).
Hypothesis HStr : forall s, P (VStr s).
Hypothesis HArr : forall items, Forall P items -> P (VArr items).
Hypothesis HObj :
  forall entries, Forall (fun entry => P (snd entry)) entries ->
                  P (VObj entries).

Fixpoint value_nested_ind (v : value) : P v :=
  match v with
  | VUndefined => HUndefined
  | VNull => HNull
  | VBool b => HBool b
  | VNum n => HNum n
  | VStr s => HStr s
  | VArr items =>
      HArr items
        ((fix all (l : list value) : Forall P l :=
            match l with
            | [] => Forall_nil P
            | x :: r => Forall_cons x (value_nested_ind x) (all r)
            end) items)
  | VObj entries =>
      HObj entries
        ((fix all (l : list (string * value))
            : Forall (fun entry => P (snd entry)) l :=
            match l with
            | [] => Forall_nil _
            | (k, x) :: r =>
                Forall_cons (k, x) (value_nested_ind x) (all r)
            end) entries)
  end.

End ValueInduction.

(** ** The type inferencer *)

Lemma jsonToTypeScript_array (first : value) (rest : list value) (indent : nat) :
  jsonToTypeScript (VArr (first :: rest)) indent
  = arrayOf (jsonToTypeScript first indent).
Proof. reflexivity. Qed.

Lemma map_fieldLine (indent : nat) (entries : list (string * value)) :
  map (fun entry : string * value =>
         let (key, val) := entry in
         repeat "  " indent ++ "  " ++ key ++ ": "
           ++ jsonToTypeScript val (indent + 1)) entries
  = map (fieldLine indent) entries.
Proof.
  apply map_ext. intros [key val]. reflexivity.
Qed.

Lemma jsonToTypeScript_object (entry : string * value)
    (entries : list (string * value)) (indent : nat) :
  jsonToTypeScript (VObj (entry :: entries)) indent
  = "{" ++ nl ++ join nl (map (fieldLine indent) (entry :: entries))
      ++ nl ++ repeat "  " indent ++ "}".
Proof.
  cbn [jsonToTypeScript]. rewrite map_fieldLine. reflexivity.
Qed.

(** C1. A non-empty array sample infers to the array type over the inferred
    type of its first element, whatever the later elements are; so
    [[1, 2, "x"]] infers to the array-of-number type.  The empty array infers
    to the generic array type [any[]]. *)
Theorem C1_array_first_element_only :
  (forall indent, jsonToTypeScript (VArr []) indent = "any[]")
  /\ (forall first rest indent,
         jsonToTypeScript (VArr (first :: rest)) indent
         = arrayOf (jsonToTypeScript first indent))
  /\ (forall first rest rest' indent,
         jsonToTypeScript (VArr (first :: rest)) indent
         = jsonToTypeScript (VArr (first :: rest')) indent)
  /\ jsonToTypeScript (VArr [VNum 1; VNum 2; VStr "x"]) 0 = "(number)[]".
Proof.
  split; [reflexivity|]. split; [|split].
  - intros. apply jsonToTypeScript_array.
  - intros. now rewrite !jsonToTypeScript_array.
  - reflexivity.
Qed.

(** C7. The empty object infers to the open mapping type
    [Record<string, any>].  A non-empty object infers to a record with one
    field line per entry, in the order the object enumerates its entries,
    each line giving the key and the type inferred from its value one level
    deeper; [{"a": 1, "b": "x"}] gives [a: number] then [b: string]. *)
Theorem C7_object_fields_in_order :
  (forall indent, jsonToTypeScript (VObj []) indent = "Record<string, any>")
  /\ (forall entry entries indent,
         jsonToTypeScript (VObj (entry :: entries)) indent
         = "{" ++ nl ++ join nl (map (fieldLine indent) (entry :: entries))
             ++ nl ++ repeat "  " indent ++ "}")
  /\ (forall key val indent,
         fieldLine indent (key, val)
         = repeat "  " indent ++ "  " ++ key ++ ": "
             ++ jsonToTypeScript val (indent + 1))
  /\ jsonToTypeScript (VObj [("a", VNum 1); ("b", VStr "x")]) 0
     = "{" ++ nl ++ "  a: number" ++ nl ++ "  b: string" ++ nl ++ "}".
Proof.
  split; [reflexivity|]. split; [|split].
  - intros. apply jsonToTypeScript_object.
  - reflexivity.
  - reflexivity.
Qed.

Lemma jsonToTypeScript_shape (v : value) :
  forall indent, jsonToTypeScript (shape v) indent = jsonToTypeScript v indent.
Proof.
  induction v using value_nested_ind; intro indent; try reflexivity.
  - destruct items as [|first rest]; [reflexivity|].
    cbn [shape map]. rewrite !jsonToTypeScript_array.
    inversion H as [|? ? Hfirst _]; subst. now rewrite Hfirst.
  - destruct entries as [|entry rest]; [reflexivity|].
    assert (Hlines :
      map (fieldLine indent)
        (map (fun e : string * value => let (key, val) := e in (key, shape val))
           (entry :: rest))
      = map (fieldLine indent) (entry :: rest)).
    { rewrite map_map. induction H as [|[key val] l Hhead _ IH].
      - reflexivity.
      - cbn [map]. f_equal; [|exact IH].
        unfold fieldLine; cbn [fst snd] in *. now rewrite Hhead. }
    cbn [shape]. destruct entry as [key val].
    cbn [map] in *. rewrite !jsonToTypeScript_object.
    cbn [map]. now rewrite Hlines.
Qed.

(** C9. Inference looks at the kind structure of a sample only: two samples
    of the same shape (same kinds, same keys in the same order, arrays of the
    same shapes) infer to the same text, whatever their numbers, strings and
    booleans are. *)
Theorem C9_inference_depends_on_shape_only (v w : value) (indent : nat) :
  sameShape v w ->
  jsonToTypeScript v indent = jsonToTypeScript w indent.
Proof.
  unfold sameShape. intro Hshape.
  rewrite <- (jsonToTypeScript_shape v), <- (jsonToTypeScript_shape w).
  now rewrite Hshape.
Qed.

Lemma C9_witness :
  sameShape (VObj [("id", VNum 1); ("tags", VArr [VStr "a"; VBool true])])
            (VObj [("id", VNum 42); ("tags", VArr [VStr "zz"; VBool false])])
  /\ jsonToTypeScript
       (VObj [("id", VNum 1); ("tags", VArr [VStr "a"; VBool true])]) 0
     = jsonToTypeScript
         (VObj [("id", VNum 42); ("tags", VArr [VStr "zz"; VBool false])]) 0.
Proof.
  split; [reflexivity|].
  apply C9_inference_depends_on_shape_only. reflexivity.
Defined.

(** ** The name deriver *)

Lemma append_empty_r (s : string) : s ++ "" = s.
Proof. induction s as [|c r IH]; cbn; [reflexivity | now rewrite IH]. Qed.

Lemma append_assoc (s t u : string) : (s ++ t) ++ u = s ++ t ++ u.
Proof. induction s as [|c r IH]; cbn; [reflexivity | now rewrite IH]. Qed.

Lemma join_empty_cons (p : string) (ps : list string) :
  join "" (p :: ps) = p ++ join "" ps.
Proof.
  destruct ps as [|q qs]; cbn [join].
  - now rewrite append_empty_r.
  - reflexivity.
Qed.

Lemma split_not_nil (sep : ascii) (s : string) : split sep s <> [].
Proof.
  destruct s as [|c r]; cbn; [discriminate|].
  destruct (Ascii.eqb c sep); [discriminate|].
  destruct (split sep r); discriminate.
Qed.

Lemma capitalize_cons (c : ascii) (p : string) :
  capitalize (String c p) = String (upperChar c) p.
Proof. reflexivity. Qed.

Lemma segments_brace (c : ascii) (r : string) :
  Ascii.eqb c "{" || Ascii.eqb c "}" = true ->
  segments (String c r) = segments r.
Proof.
  intro Hc. unfold segments, replaceChar. cbn [mapChars removeChars].
  destruct (Ascii.eqb_spec c "/") as [->|_]; [discriminate|].
  now rewrite Hc.
Qed.

Lemma segments_separator (c : ascii) (r : string) :
  Ascii.eqb c "/" || Ascii.eqb c "_" = true ->
  segments (String c r) = "" :: segments r.
Proof.
  intro Hc. unfold segments, replaceChar. cbn [mapChars removeChars].
  destruct (Ascii.eqb_spec c "/") as [->|Hslash]; [reflexivity|].
  destruct (Ascii.eqb_spec c "_") as [->|_]; [reflexivity|discriminate].
Qed.

Lemma segments_other (c : ascii) (r : string) :
  Ascii.eqb c "{" || Ascii.eqb c "}" = false ->
  Ascii.eqb c "/" || Ascii.eqb c "_" = false ->
  segments (String c r)
  = match segments r with
    | [] => [String c ""]
    | p :: ps => String c p :: ps
    end.
Proof.
  intros Hbrace Hsep. unfold segments, replaceChar.
  cbn [mapChars removeChars].
  apply orb_false_iff in Hsep as [Hslash Hunder].
  rewrite Hslash, Hbrace. cbn [split]. now rewrite Hunder.
Qed.

Lemma titleCased_segments (s : string) :
  forall p ps,
    segments s = p :: ps ->
    titleCased false s = p ++ join "" (map capitalize ps)
    /\ titleCased true s = capitalize p ++ join "" (map capitalize ps).
Proof.
  induction s as [|c r IH]; intros p ps Hsplit.
  - cbn in Hsplit. injection Hsplit as <- <-. split; reflexivity.
  - cbn [titleCased].
    destruct (Ascii.eqb c "{" || Ascii.eqb c "}") eqn:Hbrace.
    { rewrite segments_brace in Hsplit by exact Hbrace. now apply IH. }
    destruct (Ascii.eqb c "/" || Ascii.eqb c "_") eqn:Hsep.
    { rewrite segments_separator in Hsplit by exact Hsep.
      injection Hsplit as <- <-.
      destruct (segments r) as [|q qs] eqn:Hr.
      - exfalso. revert Hr. apply split_not_nil.
      - destruct (IH q qs eq_refl) as [_ Htrue].
        cbn [map]. rewrite join_empty_cons. cbn [capitalize]. split; exact Htrue. }
    rewrite segments_other in Hsplit by assumption.
    destruct (segments r) as [|q qs] eqn:Hr.
    { exfalso. revert Hr. apply split_not_nil. }
    injection Hsplit as <- <-.
    destruct (IH q qs eq_refl) as [Hfalse _].
    rewrite capitalize_cons. cbn [append]. now rewrite Hfalse.
Qed.

Lemma pathToFunctionName_titleCased (path : string) :
  pathToFunctionName path = nameFragment path.
Proof.
  unfold pathToFunctionName, nameFragment.
  fold (segments (removePrefix "/api/" path)).
  destruct (segments (removePrefix "/api/" path)) as [|p ps] eqn:Hsegments.
  - exfalso. revert Hsegments. apply split_not_nil.
  - destruct (titleCased_segments _ p ps Hsegments) as [_ ->].
    cbn [map]. apply join_empty_cons.
Qed.

Lemma generateTypeName_fragment (path suffix : string) :
  generateTypeName path suffix = pathToFunctionName path ++ suffix.
Proof. reflexivity. Qed.

(** C2. The name fragment of a path is obtained by stripping a leading
    [/api/], turning every slash into the separator, dropping the braces
    while keeping the parameter names, splitting on the separator,
    upper-casing the first character of each segment only, and concatenating;
    a type name is the fragment followed by its suffix.  [/api/users] gives
    [Users] and [/api/users/{id}] gives [UsersId]. *)
Theorem C2_name_fragment_derivation :
  (forall path,
      pathToFunctionName path
      = join "" (map capitalize (segments (removePrefix "/api/" path))))
  /\ (forall path, pathToFunctionName path = nameFragment path)
  /\ (forall path suffix,
         generateTypeName path suffix = pathToFunctionName path ++ suffix)
  /\ pathToFunctionName "/api/users" = "Users"
  /\ pathToFunctionName "/api/users/{id}" = "UsersId"
  /\ generateTypeName "/api/users/{id}" "Response" = "UsersIdResponse".
Proof.
  split; [reflexivity|]. split; [|split; [|repeat split]].
  - apply pathToFunctionName_titleCased.
  - apply generateTypeName_fragment.
Qed.

Lemma startsWith_append (p s : string) :
  startsWith s p = true -> s = p ++ dropChars (String.length p) s.
Proof.
  revert s. induction p as [|a p IH]; intros s Hs; [reflexivity|].
  destruct s as [|b s]; [discriminate|].
  cbn in Hs. apply andb_true_iff in Hs as [Hab Hrest].
  apply Ascii.eqb_eq in Hab. subst b. cbn. f_equal. now apply IH.
Qed.

Lemma removePrefix_empty (path : string) :
  removePrefix "/api/" path = "" <-> path = "" \/ path = "/api/".
Proof.
  unfold removePrefix. split.
  - destruct (startsWith path "/api/") eqn:Hstarts.
    + intro Hdrop. right.
      rewrite (startsWith_append _ _ Hstarts), Hdrop. reflexivity.
    + intro Hpath. now left.
  - intros [-> | ->]; reflexivity.
Qed.

(** C6, as the script has it.  A path that is empty once the [/api/] prefix
    is stripped (the path [/api/], or the empty path) derives the empty
    fragment, so its type names are exactly [Request] and [Response].  The
    path [/api] does not carry the prefix, which ends in a slash: it derives
    the fragment [Api]. *)
Theorem C6_empty_fragment (path : string) :
  removePrefix "/api/" path = "" ->
  pathToFunctionName path = ""
  /\ generateTypeName path "Request" = "Request"
  /\ generateTypeName path "Response" = "Response"
  /\ (path = "" \/ path = "/api/")
  /\ pathToFunctionName "/api" = "Api".
Proof.
  intro Hempty.
  assert (Hfragment : pathToFunctionName path = "").
  { unfold pathToFunctionName. now rewrite Hempty. }
  rewrite !generateTypeName_fragment, Hfragment.
  repeat split. now apply removePrefix_empty.
Qed.

Lemma C6_witness :
  removePrefix "/api/" "/api/" = ""
  /\ pathToFunctionName "/api/" = ""
  /\ generateTypeName "/api/" "Request" = "Request"
  /\ generateTypeName "/api/" "Response" = "Response".
Proof.
  split; [reflexivity|].
  destruct (C6_empty_fragment "/api/" eq_refl) as (H1 & H2 & H3 & _).
  repeat split; assumption.
Defined.

(** C6 as the spec words it fails at [/api]: the fragment is not empty and
    the type names are [ApiRequest] and [ApiResponse]. *)
Lemma C6_counterexample :
  pathToFunctionName "/api" = "Api"
  /\ pathToFunctionName "/api" <> ""
  /\ generateTypeName "/api" "Request" <> "Request"
  /\ generateTypeName "/api" "Response" <> "Response".
Proof.
  split; [reflexivity|]. repeat split; discriminate.
Qed.

(** ** The Map of named types *)
Module TypeMapFacts.

Lemma has_true (types : TypeMap.t) (name : string) :
  TypeMap.has types name = true <-> exists v, TypeMap.get types name = Some v.
Proof.
  unfold TypeMap.has. destruct (TypeMap.get types name) as [v|].
  - split; [intros _; now exists v | reflexivity].
  - split; [discriminate | intros [v Hv]; discriminate].
Qed.

Lemma has_false (types : TypeMap.t) (name : string) :
  TypeMap.has types name = false <-> TypeMap.get types name = None.
Proof.
  unfold TypeMap.has. destruct (TypeMap.get types name); split;
    intros; congruence.
Qed.

Lemma get_set_same (types : TypeMap.t) (name : string) (v : value) :
  TypeMap.get (TypeMap.set types name v) name = Some v.
Proof.
  induction types as [|[k w] rest IH]; cbn.
  - now rewrite String.eqb_refl.
  - destruct (k =? name) eqn:Hk; cbn; now rewrite Hk.
Qed.

Lemma get_set_other (types : TypeMap.t) (name other : string) (v : value) :
  name <> other ->
  TypeMap.get (TypeMap.set types name v) other = TypeMap.get types other.
Proof.
  intro Hne. induction types as [|[k w] rest IH]; cbn.
  - apply String.eqb_neq in Hne. now rewrite Hne.
  - destruct (k =? name) eqn:Hk; cbn.
    + apply String.eqb_eq in Hk. subst k.
      apply String.eqb_neq in Hne. now rewrite Hne.
    + destruct (k =? other); [reflexivity | exact IH].
Qed.

Lemma keys_set (types : TypeMap.t) (name : string) (v : value) :
  map fst (TypeMap.set types name v)
  = if TypeMap.has types name then map fst types
    else (map fst types ++ [name])%list.
Proof.
  unfold TypeMap.has. induction types as [|[k w] rest IH]; cbn.
  - reflexivity.
  - destruct (k =? name) eqn:Hk; cbn; [reflexivity|].
    rewrite IH. now destruct (TypeMap.get rest name).
Qed.

Lemma get_none_not_key (types : TypeMap.t) (name : string) :
  TypeMap.get types name = None -> ~ In name (map fst types).
Proof.
  induction types as [|[k w] rest IH]; cbn; [tauto|].
  destruct (k =? name) eqn:Hk; [discriminate|].
  apply String.eqb_neq in Hk. intros Hrest [Hhead|Htail]; [congruence|].
  now apply IH.
Qed.

End TypeMapFacts.
Import TypeMapFacts.

Lemma setIfAbsent_keeps (types : TypeMap.t) (name other : string)
    (v w : value) :
  TypeMap.get types other = Some w ->
  TypeMap.get (setIfAbsent types name v) other = Some w.
Proof.
  intro Hbound. unfold setIfAbsent.
  destruct (TypeMap.has types name) eqn:Hhas; cbn; [exact Hbound|].
  rewrite get_set_other; [exact Hbound|].
  intros ->. apply has_false in Hhas. congruence.
Qed.

Lemma setIfAbsent_other (types : TypeMap.t) (name other : string)
    (v : value) :
  name <> other ->
  TypeMap.get (setIfAbsent types name v) other = TypeMap.get types other.
Proof.
  intro Hne. unfold setIfAbsent.
  destruct (TypeMap.has types name); cbn; [reflexivity|].
  now apply get_set_other.
Qed.

Lemma setIfAbsent_fresh (types : TypeMap.t) (name : string) (v : value) :
  TypeMap.get types name = None ->
  TypeMap.get (setIfAbsent types name v) name = Some v.
Proof.
  intro Hfree. unfold setIfAbsent.
  apply has_false in Hfree. rewrite Hfree. cbn. apply get_set_same.
Qed.

Lemma setIfAbsent_has (types : TypeMap.t) (name : string) (v : value) :
  TypeMap.has (setIfAbsent types name v) name = true.
Proof.
  destruct (TypeMap.get types name) as [w|] eqn:Hget; apply has_true.
  - exists w. now apply setIfAbsent_keeps.
  - exists v. now apply setIfAbsent_fresh.
Qed.

Lemma setIfAbsent_NoDup (types : TypeMap.t) (name : string) (v : value) :
  NoDup (map fst types) -> NoDup (map fst (setIfAbsent types name v)).
Proof.
  intro Hnodup. unfold setIfAbsent.
  destruct (TypeMap.has types name) eqn:Hhas; cbn; [exact Hnodup|].
  rewrite keys_set, Hhas.
  apply has_false, get_none_not_key in Hhas.
  apply NoDup_app; repeat split.
  - exact Hnodup.
  - constructor; [tauto | constructor].
  - intros x Hx [<-|[]]. contradiction.
Qed.

Lemma registerTypes_unfold (types : TypeMap.t) (a : api) :
  registerTypes types a
  = setIfAbsent
      (if registersRequest a
       then setIfAbsent types (requestName a) (requestBody a)
       else types)
      (responseName a) (response a).
Proof. reflexivity. Qed.

Lemma lastChar_append (s t : string) :
  t <> "" -> lastChar (s ++ t) = lastChar t.
Proof.
  intro Ht. induction s as [|c r IH]; [reflexivity|].
  cbn [append lastChar]. destruct (r ++ t) eqn:Hrt; [|exact IH].
  destruct r; [cbn in Hrt; contradiction | discriminate].
Qed.

Lemma request_response_names_differ (p q : string) :
  generateTypeName p "Request" <> generateTypeName q "Response".
Proof.
  rewrite !generateTypeName_fragment. intro Heq.
  apply (f_equal lastChar) in Heq.
  rewrite !lastChar_append in Heq by discriminate. discriminate.
Qed.

Lemma registerTypes_keeps (types : TypeMap.t) (a : api) (name : string)
    (v : value) :
  TypeMap.get types name = Some v ->
  TypeMap.get (registerTypes types a) name = Some v.
Proof.
  intro Hbound. rewrite registerTypes_unfold.
  apply setIfAbsent_keeps.
  destruct (registersRequest a); [now apply setIfAbsent_keeps | exact Hbound].
Qed.

Lemma registerTypes_all_keep (apis : list api) :
  forall types name v,
    TypeMap.get types name = Some v ->
    TypeMap.get (fold_left registerTypes apis types) name = Some v.
Proof.
  induction apis as [|a rest IH]; intros types name v Hbound; [exact Hbound|].
  cbn [fold_left]. apply IH. now apply registerTypes_keeps.
Qed.

Lemma registerTypes_request_gated (types : TypeMap.t) (a : api) :
  registersRequest a = false ->
  TypeMap.get (registerTypes types a) (requestName a)
  = TypeMap.get types (requestName a).
Proof.
  intro Hgate. rewrite registerTypes_unfold, Hgate.
  apply setIfAbsent_other. intro Heq. symmetry in Heq. revert Heq.
  apply request_response_names_differ.
Qed.

Lemma registerTypes_response_has (types : TypeMap.t) (a : api) :
  TypeMap.has (registerTypes types a) (responseName a) = true.
Proof. rewrite registerTypes_unfold. apply setIfAbsent_has. Qed.

Lemma registerTypes_response_fresh (types : TypeMap.t) (a : api) :
  TypeMap.get types (responseName a) = None ->
  TypeMap.get (registerTypes types a) (responseName a) = Some (response a).
Proof.
  intro Hfree. rewrite registerTypes_unfold. apply setIfAbsent_fresh.
  destruct (registersRequest a); [|exact Hfree].
  rewrite setIfAbsent_other; [exact Hfree|].
  apply request_response_names_differ.
Qed.

Lemma registerTypes_request_fresh (types : TypeMap.t) (a : api) :
  registersRequest a = true ->
  TypeMap.get types (requestName a) = None ->
  TypeMap.get (registerTypes types a) (requestName a) = Some (requestBody a).
Proof.
  intros Hgate Hfree. rewrite registerTypes_unfold, Hgate.
  apply setIfAbsent_keeps. now apply setIfAbsent_fresh.
Qed.

Lemma registerTypes_other_response (types : TypeMap.t) (b : api)
    (name : string) :
  responseName b <> name ->
  (registersRequest b = true -> requestName b <> name) ->
  TypeMap.get (registerTypes types b) name = TypeMap.get types name.
Proof.
  intros Hresponse Hrequest. rewrite registerTypes_unfold.
  rewrite setIfAbsent_other by exact Hresponse.
  destruct (registersRequest b); [|reflexivity].
  apply setIfAbsent_other. now apply Hrequest.
Qed.

Lemma registerTypes_all_other (apis : list api) (name : string) :
  (forall b, In b apis -> responseName b <> name) ->
  (forall b, In b apis -> registersRequest b = true -> requestName b <> name) ->
  forall types,
    TypeMap.get (fold_left registerTypes apis types) name
    = TypeMap.get types name.
Proof.
  induction apis as [|b rest IH]; intros Hresponse Hrequest types;
    [reflexivity|].
  cbn [fold_left]. rewrite IH.
  - apply registerTypes_other_response.
    + apply Hresponse. now left.
    + apply Hrequest. now left.
  - intros c Hc. apply Hresponse. now right.
  - intros c Hc. apply Hrequest. now right.
Qed.

Lemma registerTypes_NoDup (apis : list api) :
  forall types,
    NoDup (map fst types) ->
    NoDup (map fst (fold_left registerTypes apis types)).
Proof.
  induction apis as [|a rest IH]; intros types Hnodup; [exact Hnodup|].
  cbn [fold_left]. apply IH. rewrite registerTypes_unfold.
  apply setIfAbsent_NoDup.
  destruct (registersRequest a); [now apply setIfAbsent_NoDup | exact Hnodup].
Qed.

Lemma collectTypes_app (before after : list api) :
  collectTypes (before ++ after)
  = fold_left registerTypes after (collectTypes before).
Proof. unfold collectTypes. apply fold_left_app. Qed.

(** ** The named type table *)

(** C3. The table of named types is deduplicated by name, first write wins:
    a name that is bound keeps its binding whatever endpoints follow; the
    sample bound to a response name is the response of the first endpoint
    that derives this name, those of later endpoints deriving it are dropped;
    likewise a request name is bound to the request body of the first endpoint
    that registers it; no name occurs twice in the table. *)
Theorem C3_first_write_wins :
  (forall apis types name v,
      TypeMap.get types name = Some v ->
      TypeMap.get (fold_left registerTypes apis types) name = Some v)
  /\ (forall before a after,
         (forall b, In b before -> responseName b <> responseName a) ->
         TypeMap.get (collectTypes (before ++ a :: after)) (responseName a)
         = Some (response a))
  /\ (forall before a after,
         registersRequest a = true ->
         (forall b, In b before -> registersRequest b = true ->
                    requestName b <> requestName a) ->
         TypeMap.get (collectTypes (before ++ a :: after)) (requestName a)
         = Some (requestBody a))
  /\ (forall apis, NoDup (map fst (collectTypes apis))).
Proof.
  split; [exact registerTypes_all_keep|]. split; [|split].
  - intros before a after Hfirst.
    rewrite collectTypes_app. cbn [fold_left].
    apply registerTypes_all_keep, registerTypes_response_fresh.
    unfold collectTypes. rewrite registerTypes_all_other; [reflexivity| |].
    + exact Hfirst.
    + intros b _ _. apply request_response_names_differ.
  - intros before a after Hgate Hfirst.
    rewrite collectTypes_app. cbn [fold_left].
    apply registerTypes_all_keep, registerTypes_request_fresh; [exact Hgate|].
    unfold collectTypes. rewrite registerTypes_all_other; [reflexivity| |].
    + intros b _ Heq. symmetry in Heq. revert Heq.
      apply request_response_names_differ.
    + exact Hfirst.
  - intro apis. apply registerTypes_NoDup. constructor.
Qed.

Lemma C3_witness :
  (forall b, In b [getPosts] ->
             responseName b <> responseName (getUsers (VNum 1)))
  /\ responseName (getUsers (VNum 1)) = responseName (getUsers (VStr "x"))
  /\ TypeMap.get
       (collectTypes ([getPosts] ++ getUsers (VNum 1) :: [getUsers (VStr "x")]))
       (responseName (getUsers (VNum 1)))
     = Some (VNum 1).
Proof.
  assert (Hfirst : forall b, In b [getPosts] ->
                     responseName b <> responseName (getUsers (VNum 1))).
  { intros b [<-|[]]. discriminate. }
  split; [exact Hfirst|]. split; [reflexivity|].
  exact (proj1 (proj2 C3_first_write_wins)
           [getPosts] (getUsers (VNum 1)) [getUsers (VStr "x")] Hfirst).
Defined.

(** ** Handlers and the endpoint map *)

Lemma handledMethods_false (m : string) :
  includes handledMethods m = false ->
  (m =? "get") = false
  /\ includes ["post"; "put"; "patch"] m = false
  /\ (m =? "delete") = false.
Proof.
  unfold includes, handledMethods. cbn [existsb].
  intro Hnone.
  apply orb_false_iff in Hnone as [Hget Hnone].
  apply orb_false_iff in Hnone as [Hpost Hnone].
  apply orb_false_iff in Hnone as [Hput Hnone].
  apply orb_false_iff in Hnone as [Hpatch Hnone].
  apply orb_false_iff in Hnone as [Hdelete _].
  now rewrite Hget, Hpost, Hput, Hpatch, Hdelete.
Qed.

Lemma handler_unhandled (a : api) :
  includes handledMethods (toLowerCase (method a)) = false ->
  handler a = Normal None.
Proof.
  intro Hmethod.
  destruct (handledMethods_false _ Hmethod) as (Hget & Hbody & Hdelete).
  unfold handler. now rewrite Hget, Hbody, Hdelete.
Qed.

Lemma collectTypes_response_has (apis : list api) (a : api) :
  In a apis -> TypeMap.has (collectTypes apis) (responseName a) = true.
Proof.
  intro Hin. apply in_split in Hin as (before & after & ->).
  rewrite collectTypes_app. cbn [fold_left].
  destruct (proj1 (has_true _ _)
              (registerTypes_response_has (collectTypes before) a)) as [v Hv].
  apply has_true. exists v. now apply registerTypes_all_keep.
Qed.

(** C5, as the script has it.  An endpoint whose lower-cased method is none of
    get, post, put, patch, delete gets no handler: the callback returns
    nothing, which joins as the empty text, and does not throw.  Type
    generation still registers its response name, bound to its response when
    the name was free.  Its request type is not registered: that registration
    is reserved to post, put and patch. *)
Theorem C5_unsupported_method (a : api) :
  includes handledMethods (toLowerCase (method a)) = false ->
  handler a = Normal None
  /\ mapNormal joined (handler a) = Normal ""
  /\ (forall apis, In a apis ->
        TypeMap.has (collectTypes apis) (responseName a) = true)
  /\ (forall types,
        TypeMap.get types (responseName a) = None ->
        TypeMap.get (registerTypes types a) (responseName a)
        = Some (response a))
  /\ (forall types,
        TypeMap.get (registerTypes types a) (requestName a)
        = TypeMap.get types (requestName a)).
Proof.
  intro Hmethod.
  destruct (handledMethods_false _ Hmethod) as (Hget & Hbody & Hdelete).
  assert (Hhandler : handler a = Normal None)
    by now apply handler_unhandled.
  rewrite Hhandler. repeat split.
  - intros apis. apply collectTypes_response_has.
  - intros types. apply registerTypes_response_fresh.
  - intros types. apply registerTypes_request_gated.
    unfold registersRequest. rewrite Hbody. apply andb_false_r.
Qed.

Lemma C5_witness :
  includes handledMethods (toLowerCase (method optionsUsers)) = false
  /\ handler optionsUsers = Normal None
  /\ TypeMap.get (registerTypes TypeMap.empty optionsUsers) "UsersResponse"
     = Some (VObj [("id", VNum 1)])
  /\ TypeMap.get (registerTypes TypeMap.empty optionsUsers) "UsersRequest"
     = None.
Proof.
  split; [reflexivity|].
  destruct (C5_unsupported_method optionsUsers eq_refl)
    as (Hhandler & _ & _ & Hresponse & Hrequest).
  split; [exact Hhandler|]. split.
  - exact (Hresponse TypeMap.empty eq_refl).
  - exact (Hrequest TypeMap.empty).
Defined.

(** C5 as the spec words it fails for the request type: an OPTIONS endpoint
    with a request body gets no handler and its response type is registered,
    but its request type is not. *)
Lemma C5_counterexample :
  includes handledMethods (toLowerCase (method optionsUsers)) = false
  /\ present (requestBody optionsUsers) = true
  /\ TypeMap.has (collectTypes [optionsUsers]) (responseName optionsUsers)
     = true
  /\ TypeMap.has (collectTypes [optionsUsers]) (requestName optionsUsers)
     = false.
Proof. repeat split. Qed.

Lemma fold_left_append {A : Type} (f : A -> string) (l : list A) :
  forall init,
    fold_left (fun acc x => acc ++ f x) l init = init ++ join "" (map f l).
Proof.
  induction l as [|x rest IH]; intro init; cbn [fold_left map].
  - cbn. now rewrite append_empty_r.
  - rewrite IH, join_empty_cons. apply append_assoc.
Qed.

Lemma generateTypes_layout (apis : list api) :
  generateTypes apis
  = "// Auto-generated TypeScript types from API specification" ++ nl ++ nl
      ++ declarations (collectTypes apis)
      ++ "// API function types" ++ nl
      ++ "export interface ApiEndpoints {" ++ nl
      ++ join "" (map endpointEntry apis)
      ++ "}" ++ nl.
Proof.
  unfold generateTypes, declarations. cbv zeta.
  rewrite !fold_left_append. now rewrite !append_assoc.
Qed.

(** C8, as the script has it.  The endpoint-map entry of an endpoint is named
    by its lower-cased method followed by the path fragment; it takes the
    derived Request type as its one parameter exactly when [requestBody] is
    truthy (present and none of null, false, 0 and the empty string) and no
    parameter otherwise; it returns the derived Response type inside
    [Promise<...>].  The entries follow the declarations in the type
    document, one per endpoint, in input order. *)
Theorem C8_endpoint_map_entry :
  (forall a,
      endpointEntry a
      = "  " ++ toLowerCase (method a) ++ pathToFunctionName (path a)
          ++ ": ("
          ++ (if truthy (requestBody a)
              then "body: " ++ generateTypeName (path a) "Request" else "")
          ++ ") => Promise<" ++ generateTypeName (path a) "Response" ++ ">"
          ++ nl)
  /\ (forall apis,
         generateTypes apis
         = "// Auto-generated TypeScript types from API specification"
             ++ nl ++ nl
             ++ declarations (collectTypes apis)
             ++ "// API function types" ++ nl
             ++ "export interface ApiEndpoints {" ++ nl
             ++ join "" (map endpointEntry apis)
             ++ "}" ++ nl).
Proof.
  split; [|exact generateTypes_layout].
  intro a. unfold endpointEntry. cbv zeta.
  destruct (truthy (requestBody a)); reflexivity.
Qed.

(** C8 as the spec words it fails for a request body that is present but
    falsy: with the sample [0] as request body the entry takes no parameter. *)
Lemma C8_counterexample :
  present (requestBody postUsersZeroBody) = true
  /\ endpointEntry postUsersZeroBody
     = "  postUsers: () => Promise<UsersResponse>" ++ nl.
Proof. split; reflexivity. Qed.

(** C10, as the script has it.  For an endpoint whose [requestBody] is truthy
    and whose method is none of post, put, patch, the endpoint-map entry
    declares a [body] parameter of the derived Request type, while the
    endpoint's own registration step leaves the binding of that Request name
    as it was: absent unless another endpoint registered it. *)
Theorem C10_body_parameter_without_registration (a : api) :
  truthy (requestBody a) = true ->
  includes ["post"; "put"; "patch"] (toLowerCase (method a)) = false ->
  endpointEntry a
  = "  " ++ toLowerCase (method a) ++ pathToFunctionName (path a)
      ++ ": (body: " ++ requestName a ++ ") => Promise<" ++ responseName a
      ++ ">" ++ nl
  /\ (forall types,
        TypeMap.get (registerTypes types a) (requestName a)
        = TypeMap.get types (requestName a))
  /\ TypeMap.has (collectTypes [a]) (requestName a) = false.
Proof.
  intros Hbody Hmethod.
  assert (Hgate : registersRequest a = false).
  { unfold registersRequest. rewrite Hmethod. apply andb_false_r. }
  split; [|split].
  - unfold endpointEntry. cbv zeta. now rewrite Hbody.
  - intro types. now apply registerTypes_request_gated.
  - apply has_false. unfold collectTypes. cbn [fold_left].
    now rewrite registerTypes_request_gated.
Qed.

Lemma C10_witness :
  truthy (requestBody getUsersWithBody) = true
  /\ includes ["post"; "put"; "patch"] (toLowerCase (method getUsersWithBody))
     = false
  /\ endpointEntry getUsersWithBody
     = "  getUsers: (body: UsersRequest) => Promise<UsersResponse>" ++ nl
  /\ TypeMap.has (collectTypes [getUsersWithBody]) "UsersRequest" = false.
Proof.
  split; [reflexivity|]. split; [reflexivity|].
  destruct (C10_body_parameter_without_registration getUsersWithBody
              eq_refl eq_refl) as (Hentry & _ & Habsent).
  split; [exact Hentry | exact Habsent].
Defined.

(** C10 as the spec words it fails for a request body that is present but
    falsy: a GET whose request body is the sample [0] gets an entry without
    a body parameter. *)
Lemma C10_counterexample :
  present (requestBody getUsersZeroBody) = true
  /\ includes ["post"; "put"; "patch"] (toLowerCase (method getUsersZeroBody))
     = false
  /\ endpointEntry getUsersZeroBody
     = "  getUsers: () => Promise<UsersResponse>" ++ nl.
Proof. repeat split. Qed.

(** ** The run as a whole *)

Lemma destructure_strings (v : value) :
  hasStringMethodAndPath v = true ->
  exists a, destructure v = Some a /\ response a = getProp v "response".
Proof.
  unfold hasStringMethodAndPath, destructure. intro Hstrings.
  destruct v; try discriminate.
  destruct (getProp (VObj entries) "method"); try discriminate.
  destruct (getProp (VObj entries) "path"); try discriminate.
  eexists. split; reflexivity.
Qed.

Lemma destructureAll_strings (items : list value) :
  forallb hasStringMethodAndPath items = true ->
  exists apis,
    destructureAll items = Some apis
    /\ map response apis = map (fun v => getProp v "response") items.
Proof.
  induction items as [|v rest IH]; cbn [forallb]; intro Hall.
  - exists []. split; reflexivity.
  - apply andb_true_iff in Hall as [Hv Hrest].
    destruct (destructure_strings v Hv) as (a & Ha & Hresponse).
    destruct (IH Hrest) as (apis & Hapis & Hresponses).
    exists (a :: apis). cbn [destructureAll map].
    rewrite Ha, Hapis, Hresponse, Hresponses. split; reflexivity.
Qed.

Lemma destructure_some_iff (v : value) :
  (exists a, destructure v = Some a) <-> hasStringMethodAndPath v = true.
Proof.
  split.
  - intros [a Ha]. unfold destructure, hasStringMethodAndPath in *.
    destruct v; try discriminate; try reflexivity.
    destruct (getProp (VObj entries) "method"); try discriminate.
    destruct (getProp (VObj entries) "path"); try discriminate.
    reflexivity.
  - intro Hstrings. destruct (destructure_strings v Hstrings) as (a & Ha & _).
    now exists a.
Qed.

Lemma destructureAll_some_iff (items : list value) :
  (exists apis, destructureAll items = Some apis)
  <-> forallb hasStringMethodAndPath items = true.
Proof.
  split.
  - induction items as [|v rest IH]; [reflexivity|].
    intros [apis Hall]. cbn [destructureAll forallb] in *.
    destruct (destructure v) as [a|] eqn:Hv; [|discriminate].
    destruct (destructureAll rest) as [l|] eqn:Hrest; [|discriminate].
    apply andb_true_iff. split.
    + apply destructure_some_iff. now exists a.
    + apply IH. now exists l.
  - intro Hstrings.
    destruct (destructureAll_strings items Hstrings) as (apis & Hall & _).
    now exists apis.
Qed.

Lemma handler_completes (a : api) :
  handlerCompletes a = true ->
  (includes handledMethods (toLowerCase (method a)) = false
   /\ handler a = Normal None)
  \/ (includes handledMethods (toLowerCase (method a)) = true
      /\ exists text, handler a = Normal (Some text)).
Proof.
  unfold handlerCompletes, printsStatus, handler, handledMethods, includes,
    statusCodeOrDefault.
  cbn [existsb]. cbv zeta.
  destruct (toLowerCase (method a) =? "get").
  { intros _. right. split; [reflexivity|].
    destruct (includesChar (path a) "{" || includesChar (path a) ":");
      eexists; reflexivity. }
  destruct (toLowerCase (method a) =? "post"),
    (toLowerCase (method a) =? "put"),
    (toLowerCase (method a) =? "patch"),
    (toLowerCase (method a) =? "delete"); cbn [orb negb];
    try (intros _; left; split; reflexivity);
    (destruct (toString _); [|discriminate]);
    intros _; right; (split; [reflexivity|]); eexists; reflexivity.
Qed.

Lemma handler_throws (a : api) :
  handlerCompletes a = false -> handler a = Throws TypeError.
Proof.
  unfold handlerCompletes, printsStatus, handler, includes,
    statusCodeOrDefault.
  cbn [existsb]. cbv zeta.
  destruct (toLowerCase (method a) =? "get") eqn:Hget.
  { apply String.eqb_eq in Hget. rewrite Hget. discriminate. }
  destruct (toLowerCase (method a) =? "post"),
    (toLowerCase (method a) =? "put"),
    (toLowerCase (method a) =? "patch"),
    (toLowerCase (method a) =? "delete"); cbn [orb negb];
    try discriminate;
    (destruct (toString _); [discriminate|]); reflexivity.
Qed.

Lemma handler_normal_completes (a : api) (o : option string) :
  handler a = Normal o -> handlerCompletes a = true.
Proof.
  intro Hnormal. destruct (handlerCompletes a) eqn:Hcompletes; [reflexivity|].
  rewrite (handler_throws a Hcompletes) in Hnormal. discriminate.
Qed.

Lemma handler_throws_TypeError (a : api) (e : failure) :
  handler a = Throws e -> e = TypeError.
Proof.
  intro Hthrows. destruct (handlerCompletes a) eqn:Hcompletes.
  - destruct (handler_completes a Hcompletes)
      as [[_ Hnone]|[_ [text Hsome]]]; congruence.
  - rewrite (handler_throws a Hcompletes) in Hthrows. congruence.
Qed.

Lemma mapThrowing_handler_normal_iff (apis : list api) :
  (exists results, mapThrowing handler apis = Normal results)
  <-> forallb handlerCompletes apis = true.
Proof.
  induction apis as [|a rest IH]; cbn [mapThrowing forallb].
  - split; [reflexivity | intros _; now exists []].
  - split.
    + intros [results Hresults].
      destruct (handler a) as [o|e] eqn:Hhandler; [|discriminate].
      destruct (mapThrowing handler rest) as [os|e] eqn:Hrest;
        [|discriminate].
      apply andb_true_iff. split.
      * now apply (handler_normal_completes a o).
      * apply IH. now exists os.
    + intro Hall. apply andb_true_iff in Hall as [Ha Hrest].
      apply IH in Hrest as [os Hos]. rewrite Hos.
      destruct (handler_completes a Ha) as [[_ ->]|[_ [text ->]]];
        eexists; reflexivity.
Qed.

Lemma mapThrowing_handler_throws_TypeError (apis : list api) (e : failure) :
  mapThrowing handler apis = Throws e -> e = TypeError.
Proof.
  induction apis as [|a rest IH]; cbn [mapThrowing]; [discriminate|].
  destruct (handler a) as [o|e'] eqn:Hhandler.
  - destruct (mapThrowing handler rest) as [os|e'']; [discriminate|].
    intro Hthrows. apply IH. congruence.
  - intro Hthrows. apply (handler_throws_TypeError a). congruence.
Qed.

Lemma generateHandlers_normal_iff (apis : list api) :
  (exists handlersCode, generateHandlers apis = Normal handlersCode)
  <-> forallb handlerCompletes apis = true.
Proof.
  rewrite <- mapThrowing_handler_normal_iff. unfold generateHandlers.
  destruct (mapThrowing handler apis) as [results|e].
  - split; intros _; eexists; reflexivity.
  - split; intros [x Hx]; discriminate.
Qed.

Lemma generateHandlers_throws_TypeError (apis : list api) (e : failure) :
  generateHandlers apis = Throws e -> e = TypeError.
Proof.
  unfold generateHandlers.
  destruct (mapThrowing handler apis) as [results|e'] eqn:Hmap;
    [discriminate|].
  intro Hthrows. apply (mapThrowing_handler_throws_TypeError apis). congruence.
Qed.

(** C4, as the script has it.  An endpoint whose [response] is absent is not
    rejected on that account: [response] is not validated.  When [apis] is an
    array whose endpoints have a string method and a string path, and the
    handlers that print a status code can print it, the run generates both
    documents, whether [response] is present or not; an absent response is
    registered under the Response name like any sample and declared with the
    type [any]. *)
Theorem C4_absent_response_is_accepted (entries : list (string * value))
    (items : list value) (apis : list api) :
  lookupEntry "apis" entries = VArr items ->
  destructureAll items = Some apis ->
  forallb handlerCompletes apis = true ->
  map response apis = map (fun v => getProp v "response") items
  /\ (exists handlersCode,
        generateHandlers apis = Normal handlersCode
        /\ main (VObj entries) = Generated handlersCode (generateTypes apis))
  /\ (forall a types,
        response a = VUndefined ->
        TypeMap.get types (responseName a) = None ->
        TypeMap.get (registerTypes types a) (responseName a)
        = Some VUndefined)
  /\ (forall name,
        declaration (name, VUndefined)
        = "export interface " ++ name ++ " any" ++ nl ++ nl).
Proof.
  intros Hapis Hall Hcompletes. split; [|split; [|split]].
  - assert (Hstrings : forallb hasStringMethodAndPath items = true).
    { apply destructureAll_some_iff. now exists apis. }
    destruct (destructureAll_strings items Hstrings)
      as (apis' & Hall' & Hresponses).
    congruence.
  - apply generateHandlers_normal_iff in Hcompletes as [handlersCode Hcode].
    exists handlersCode. split; [exact Hcode|].
    unfold main. cbn [getProp]. now rewrite Hapis, Hall, Hcode.
  - intros a types Habsent Hfree. rewrite <- Habsent.
    now apply registerTypes_response_fresh.
  - reflexivity.
Qed.

Lemma C4_witness :
  exists handlersCode,
    main specWithoutResponse
    = Generated handlersCode
        (generateTypes
           [mkApi "GET" "/api/users" VUndefined VUndefined VUndefined]).
Proof.
  destruct (C4_absent_response_is_accepted
              [("apis",
                VArr [VObj [("method", VStr "GET");
                            ("path", VStr "/api/users")]])]
              [VObj [("method", VStr "GET"); ("path", VStr "/api/users")]]
              [mkApi "GET" "/api/users" VUndefined VUndefined VUndefined]
              eq_refl eq_refl eq_refl)
    as (_ & (handlersCode & _ & Hmain) & _).
  exists handlersCode. exact Hmain.
Defined.

(** C4 as the spec words it fails: a specification whose one endpoint has no
    [response] is not rejected, both documents are generated. *)
Lemma C4_counterexample :
  getProp (VObj [("method", VStr "GET"); ("path", VStr "/api/users")])
    "response" = VUndefined
  /\ main specWithoutResponse
     = Generated
         "import { http, HttpResponse } from 'msw'

// Auto-generated handlers from API specification
export const handlers = [
  // GET /api/users
  http.get('/api/users', () => {
    return HttpResponse.json(undefined)
  })
]
"
         "// Auto-generated TypeScript types from API specification

export interface UsersResponse any

// API function types
export interface ApiEndpoints {
  getUsers: () => Promise<UsersResponse>
}
".
Proof. split; reflexivity. Qed.

(** ** Further properties of the name deriver *)

Lemma removePrefix_api (rest : string) :
  removePrefix "/api/" ("/api/" ++ rest) = rest.
Proof. destruct rest; reflexivity. Qed.

Lemma pathToFunctionName_api (rest : string) :
  pathToFunctionName ("/api/" ++ rest) = titleCased true rest.
Proof.
  rewrite pathToFunctionName_titleCased. unfold nameFragment.
  now rewrite removePrefix_api.
Qed.

Lemma upperChar_keeps_apart (c : ascii) :
  Ascii.eqb c "{" || Ascii.eqb c "}" = false ->
  Ascii.eqb c "/" || Ascii.eqb c "_" = false ->
  Ascii.eqb (upperChar c) "{" || Ascii.eqb (upperChar c) "}" = false
  /\ Ascii.eqb (upperChar c) "/" || Ascii.eqb (upperChar c) "_" = false.
Proof.
  destruct c as [[] [] [] [] [] [] [] []]; intros Hbrace Hsep;
    vm_compute in Hbrace, Hsep; try discriminate; split; reflexivity.
Qed.

Lemma titleCased_free_of (c : ascii) (s : string) :
  Ascii.eqb c "{" || Ascii.eqb c "}" || (Ascii.eqb c "/" || Ascii.eqb c "_")
  = true ->
  forall atStart, includesChar (titleCased atStart s) c = false.
Proof.
  intro Hc. induction s as [|x r IH]; intro atStart; [reflexivity|].
  cbn [titleCased].
  destruct (Ascii.eqb x "{" || Ascii.eqb x "}") eqn:Hbrace; [apply IH|].
  destruct (Ascii.eqb x "/" || Ascii.eqb x "_") eqn:Hsep; [apply IH|].
  cbn [includesChar]. rewrite IH, orb_false_r.
  destruct (upperChar_keeps_apart x Hbrace Hsep) as [Hubrace Husep].
  apply orb_false_iff in Hbrace as [Hx1 Hx2].
  apply orb_false_iff in Hsep as [Hx3 Hx4].
  apply orb_false_iff in Hubrace as [Hu1 Hu2].
  apply orb_false_iff in Husep as [Hu3 Hu4].
  apply orb_true_iff in Hc as [Hc|Hc]; apply orb_true_iff in Hc as [Hc|Hc];
    apply Ascii.eqb_eq in Hc; subst c; now destruct atStart.
Qed.

(** X1. A derived name fragment holds no slash, no underscore and no brace,
    whatever the path. *)
Theorem fragment_has_no_separator (path : string) :
  includesChar (pathToFunctionName path) "/" = false
  /\ includesChar (pathToFunctionName path) "_" = false
  /\ includesChar (pathToFunctionName path) "{" = false
  /\ includesChar (pathToFunctionName path) "}" = false.
Proof.
  rewrite pathToFunctionName_titleCased. unfold nameFragment.
  repeat split; now apply titleCased_free_of.
Qed.

Lemma titleCased_separated (sep : ascii) (p q : string) :
  Ascii.eqb sep "/" || Ascii.eqb sep "_" = true ->
  forall atStart,
    titleCased atStart (p ++ String sep q)
    = titleCased atStart p ++ titleCased true q.
Proof.
  intro Hsep.
  assert (Hbrace : Ascii.eqb sep "{" || Ascii.eqb sep "}" = false).
  { apply orb_true_iff in Hsep as [Hs|Hs]; apply Ascii.eqb_eq in Hs;
      now subst sep. }
  induction p as [|x r IH]; intro atStart.
  - cbn [append titleCased]. now rewrite Hbrace, Hsep.
  - cbn [append titleCased].
    destruct (Ascii.eqb x "{" || Ascii.eqb x "}"); [apply IH|].
    destruct (Ascii.eqb x "/" || Ascii.eqb x "_"); [apply IH|].
    cbn [append]. now rewrite IH.
Qed.

(** X2. Under the [/api/] prefix the fragment of a path is the concatenation
    of the fragments of the parts around any of its slashes. *)
Theorem fragment_of_joined_paths (p q : string) :
  pathToFunctionName ("/api/" ++ p ++ "/" ++ q)
  = pathToFunctionName ("/api/" ++ p) ++ pathToFunctionName ("/api/" ++ q).
Proof.
  rewrite !pathToFunctionName_api.
  now apply (titleCased_separated "/").
Qed.

Lemma titleCased_brace (brace : ascii) (p q : string) :
  Ascii.eqb brace "{" || Ascii.eqb brace "}" = true ->
  forall atStart,
    titleCased atStart (p ++ String brace q) = titleCased atStart (p ++ q).
Proof.
  intro Hbrace. induction p as [|x r IH]; intro atStart.
  - cbn [append titleCased]. now rewrite Hbrace.
  - cbn [append titleCased].
    destruct (Ascii.eqb x "{" || Ascii.eqb x "}"); [apply IH|].
    destruct (Ascii.eqb x "/" || Ascii.eqb x "_"); [apply IH|].
    now rewrite IH.
Qed.

(** X3. Distinct paths derive the same names: under the [/api/] prefix a
    slash can be traded for an underscore, and a brace can be dropped,
    anywhere in the path without changing the fragment. *)
Theorem fragment_collisions (p q : string) :
  pathToFunctionName ("/api/" ++ p ++ "/" ++ q)
  = pathToFunctionName ("/api/" ++ p ++ "_" ++ q)
  /\ pathToFunctionName ("/api/" ++ p ++ "{" ++ q)
     = pathToFunctionName ("/api/" ++ p ++ q)
  /\ pathToFunctionName ("/api/" ++ p ++ "}" ++ q)
     = pathToFunctionName ("/api/" ++ p ++ q).
Proof.
  rewrite !pathToFunctionName_api. split; [|split].
  - change ("/" ++ q) with (String "/" q).
    change ("_" ++ q) with (String "_" q).
    now rewrite (titleCased_separated "/"), (titleCased_separated "_").
  - now apply (titleCased_brace "{").
  - now apply (titleCased_brace "}").
Qed.

(** X4. A Request type name and a Response type name never coincide,
    whatever the two paths. *)
Theorem request_and_response_names_apart (p q : string) :
  (generateTypeName p "Request" =? generateTypeName q "Response") = false.
Proof.
  apply String.eqb_neq.
  rewrite !generateTypeName_fragment. intro Heq.
  apply (f_equal lastChar) in Heq.
  rewrite !lastChar_append in Heq by discriminate. discriminate.
Qed.

(** ** Further properties of the type inferencer *)

Lemma startsWith_append_l (s t : string) (c : ascii) :
  startsWith s (String c "") = true ->
  startsWith (s ++ t) (String c "") = true.
Proof.
  destruct s as [|x r]; [discriminate|]. cbn. intro Hopen.
  apply andb_true_iff in Hopen as [-> _]. now destruct (r ++ t).
Qed.

(** X5. The inferred type opens with a brace exactly when the sample is a
    non-empty object or an array whose first element, followed through
    nested arrays, is one; these are the arrays whose item type is written
    without parentheses. *)
Theorem inferred_type_opens_with_brace (v : value) (indent : nat) :
  startsWith (jsonToTypeScript v indent) "{" = headIsRecord v.
Proof.
  induction v using value_nested_ind; try reflexivity.
  - destruct items as [|first rest]; [reflexivity|].
    rewrite jsonToTypeScript_array. cbn [headIsRecord].
    inversion H as [|? ? Hfirst _]; subst. rewrite <- Hfirst.
    unfold arrayOf.
    destruct (startsWith (jsonToTypeScript first indent) "{") eqn:Hopen.
    + now apply startsWith_append_l.
    + reflexivity.
  - destruct entries as [|entry rest]; [reflexivity|].
    now rewrite jsonToTypeScript_object.
Qed.

Lemma indentLines_append (s t : string) :
  indentLines (s ++ t) = indentLines s ++ indentLines t.
Proof.
  induction s as [|c r IH]; [reflexivity|].
  cbn [append indentLines]. rewrite IH.
  now destruct (Ascii.eqb c "010").
Qed.

Lemma indentLines_one_line (s : string) :
  includesChar s "010" = false -> indentLines s = s.
Proof.
  induction s as [|c r IH]; [reflexivity|].
  cbn [includesChar indentLines]. intro Hnone.
  apply orb_false_iff in Hnone as [Hc Hr]. now rewrite Hc, IH.
Qed.

Lemma indentLines_spaces (n : nat) :
  indentLines (repeat "  " n) = repeat "  " n.
Proof.
  induction n as [|n IH]; [reflexivity|].
  cbn [repeat]. now rewrite indentLines_append, IH.
Qed.

Lemma join_cons_cons (sep p q : string) (rest : list string) :
  join sep (p :: q :: rest) = p ++ sep ++ join sep (q :: rest).
Proof. reflexivity. Qed.

Lemma indentLines_join (lines : list string) :
  lines <> [] ->
  "  " ++ indentLines (join nl lines)
  = join nl (map (fun line => "  " ++ indentLines line) lines).
Proof.
  induction lines as [|line rest IH]; [congruence|]. intros _.
  destruct rest as [|next rest]; [reflexivity|].
  cbn [map] in *. rewrite !join_cons_cons, <- IH by discriminate.
  rewrite !indentLines_append.
  change (indentLines nl) with (nl ++ "  ").
  now rewrite !append_assoc.
Qed.

Lemma startsWith_empty (s : string) : startsWith s "" = true.
Proof. now destruct s. Qed.

Lemma arrayOf_indentLines (itemType : string) :
  arrayOf (indentLines itemType) = indentLines (arrayOf itemType).
Proof.
  unfold arrayOf.
  assert (Hopen : startsWith (indentLines itemType) "{"
                  = startsWith itemType "{").
  { destruct itemType as [|c r]; [reflexivity|]. cbn [indentLines].
    destruct (Ascii.eqb c "010"); cbn [startsWith];
      now rewrite !startsWith_empty. }
  rewrite Hopen. destruct (startsWith itemType "{").
  - now rewrite indentLines_append.
  - change ("(" ++ itemType ++ ")[]") with (String "(" (itemType ++ ")[]")).
    cbn [indentLines Ascii.eqb Bool.eqb]. now rewrite indentLines_append.
Qed.

Lemma fieldLine_deeper (indent : nat) (key : string) (val : value) :
  includesChar key "010" = false ->
  jsonToTypeScript val (S (indent + 1))
  = indentLines (jsonToTypeScript val (indent + 1)) ->
  fieldLine (S indent) (key, val)
  = "  " ++ indentLines (fieldLine indent (key, val)).
Proof.
  intros Hkey Hval. unfold fieldLine. cbn [fst snd repeat].
  change (S indent + 1) with (S (indent + 1)). rewrite Hval.
  rewrite !indentLines_append, indentLines_spaces.
  rewrite (indentLines_one_line key Hkey).
  now rewrite !append_assoc.
Qed.

Lemma fieldLines_deeper (indent : nat) (entries : list (string * value)) :
  Forall (fun entry : string * value =>
            forall depth,
              keysOnOneLine (snd entry) = true ->
              jsonToTypeScript (snd entry) (S depth)
              = indentLines (jsonToTypeScript (snd entry) depth))
         entries ->
  forallb (fun entry : string * value =>
             let (key, val) := entry in
             negb (includesChar key "010") && keysOnOneLine val)
          entries = true ->
  map (fieldLine (S indent)) entries
  = map (fun line => "  " ++ indentLines line)
      (map (fieldLine indent) entries).
Proof.
  intros Hall Hkeys. rewrite map_map.
  induction Hall as [|[key val] l Hhead _ IH]; [reflexivity|].
  cbn [forallb] in Hkeys.
  apply andb_true_iff in Hkeys as [Hentry Hrest].
  apply andb_true_iff in Hentry as [Hkey Hval].
  apply negb_true_iff in Hkey.
  cbn [map]. f_equal; [|now apply IH].
  apply fieldLine_deeper; [exact Hkey|].
  now apply Hhead.
Qed.

(** X6. Nesting depth changes the layout only: when no key that is printed
    holds a line break, the type written one level deeper is the same text
    with two more spaces after each of its line breaks. *)
Theorem deeper_indent_moves_lines (v : value) :
  forall indent,
    keysOnOneLine v = true ->
    jsonToTypeScript v (S indent) = indentLines (jsonToTypeScript v indent).
Proof.
  induction v using value_nested_ind; intros indent Hkeys; try reflexivity.
  - destruct items as [|first rest]; [reflexivity|].
    rewrite !jsonToTypeScript_array. cbn [keysOnOneLine] in Hkeys.
    inversion H as [|? ? Hfirst _]; subst.
    now rewrite Hfirst, arrayOf_indentLines.
  - destruct entries as [|entry rest]; [reflexivity|].
    rewrite !jsonToTypeScript_object.
    cbn [keysOnOneLine] in Hkeys.
    rewrite (fieldLines_deeper indent _ H Hkeys).
    rewrite <- indentLines_join by discriminate.
    rewrite !indentLines_append, indentLines_spaces.
    change (indentLines nl) with (nl ++ "  ").
    cbn [repeat]. now rewrite !append_assoc.
Qed.

Lemma deeper_indent_moves_lines_witness :
  keysOnOneLine (VObj [("user", VObj [("id", VNum 1)])]) = true
  /\ jsonToTypeScript (VObj [("user", VObj [("id", VNum 1)])]) 1
     = indentLines
         (jsonToTypeScript (VObj [("user", VObj [("id", VNum 1)])]) 0).
Proof.
  split; [reflexivity|].
  apply deeper_indent_moves_lines. reflexivity.
Defined.

(** ** Further properties of the named type table *)

Lemma set_absent (types : TypeMap.t) (name : string) (v : value) :
  TypeMap.get types name = None ->
  TypeMap.set types name v = (types ++ [(name, v)])%list.
Proof.
  induction types as [|[k w] rest IH]; cbn; [reflexivity|].
  destruct (k =? name); [discriminate|]. intro Hrest. now rewrite IH.
Qed.

Lemma has_includes (types : TypeMap.t) (name : string) :
  TypeMap.has types name = includes (map fst types) name.
Proof.
  unfold TypeMap.has, includes.
  induction types as [|[k w] rest IH]; cbn; [reflexivity|].
  rewrite (String.eqb_sym name k). now destruct (k =? name).
Qed.

Lemma setIfAbsent_appends (types : TypeMap.t) (name : string) (v : value) :
  setIfAbsent types name v
  = if includes (map fst types) name then types
    else (types ++ [(name, v)])%list.
Proof.
  unfold setIfAbsent. rewrite <- has_includes.
  destruct (TypeMap.has types name) eqn:Hhas; cbn; [reflexivity|].
  apply set_absent. now apply has_false.
Qed.

Lemma fold_setIfAbsent (bindings : list (string * value)) :
  forall types,
    fold_left (fun t b => setIfAbsent t (fst b) (snd b)) bindings types
    = (types ++ firstBindings (map fst types) bindings)%list.
Proof.
  induction bindings as [|[name v] rest IH]; intro types; cbn [fold_left].
  - cbn. now rewrite app_nil_r.
  - rewrite IH. cbn [fst snd firstBindings].
    rewrite setIfAbsent_appends.
    destruct (includes (map fst types) name); [reflexivity|].
    now rewrite map_app, <- app_assoc.
Qed.

Lemma registerTypes_bindings (types : TypeMap.t) (a : api) :
  registerTypes types a
  = fold_left (fun t b => setIfAbsent t (fst b) (snd b)) (bindingsOf a) types.
Proof.
  rewrite registerTypes_unfold. unfold bindingsOf.
  now destruct (registersRequest a).
Qed.

Lemma registerTypes_all_bindings (apis : list api) :
  forall types,
    fold_left registerTypes apis types
    = fold_left (fun t b => setIfAbsent t (fst b) (snd b))
        (flat_map bindingsOf apis) types.
Proof.
  induction apis as [|a rest IH]; intro types; [reflexivity|].
  cbn [fold_left flat_map]. now rewrite fold_left_app, IH, registerTypes_bindings.
Qed.

(** X7. The table of named types lists, in input order, the first binding of
    each name among the writes the endpoints attempt: for each endpoint its
    request name when the request registration applies, then its response
    name. *)
Theorem table_is_first_bindings (apis : list api) :
  collectTypes apis = firstBindings [] (flat_map bindingsOf apis).
Proof.
  unfold collectTypes. rewrite registerTypes_all_bindings.
  now rewrite fold_setIfAbsent.
Qed.

Lemma registerTypes_request_has (types : TypeMap.t) (a : api) :
  registersRequest a = true ->
  TypeMap.has (registerTypes types a) (requestName a) = true.
Proof.
  intro Hgate. rewrite registerTypes_unfold, Hgate.
  destruct (proj1 (has_true _ _)
              (setIfAbsent_has types (requestName a) (requestBody a)))
    as [v Hv].
  apply has_true. exists v. now apply setIfAbsent_keeps.
Qed.

Lemma registerTypes_has_origin (types : TypeMap.t) (a : api) (name : string) :
  TypeMap.has (registerTypes types a) name = true ->
  TypeMap.has types name = true
  \/ name = responseName a
  \/ (registersRequest a = true /\ name = requestName a).
Proof.
  intro Hhas.
  destruct (string_dec (responseName a) name) as [Hresponse|Hresponse];
    [now right; left|].
  destruct (registersRequest a) eqn:Hgate.
  - destruct (string_dec (requestName a) name) as [Hrequest|Hrequest];
      [now right; right|].
    left. unfold TypeMap.has in *.
    rewrite registerTypes_other_response in Hhas;
      [exact Hhas | exact Hresponse | intros _; exact Hrequest].
  - left. unfold TypeMap.has in *.
    rewrite registerTypes_other_response in Hhas;
      [exact Hhas | exact Hresponse | rewrite Hgate; discriminate].
Qed.

Lemma registerTypes_all_has_origin (apis : list api) (name : string) :
  forall types,
    TypeMap.has (fold_left registerTypes apis types) name = true ->
    TypeMap.has types name = true
    \/ exists a, In a apis
                 /\ (name = responseName a
                     \/ (registersRequest a = true /\ name = requestName a)).
Proof.
  induction apis as [|a rest IH]; intros types Hhas; [now left|].
  cbn [fold_left] in Hhas. destruct (IH _ Hhas) as [Hstep|(b & Hb & Horigin)].
  - destruct (registerTypes_has_origin _ _ _ Hstep) as [Hold|Horigin];
      [now left|].
    right. exists a. split; [now left | exact Horigin].
  - right. exists b. split; [now right | exact Horigin].
Qed.

(** X8. A name is in the table exactly when it is the response name of some
    endpoint of the input, or the request name of an endpoint that has a
    truthy request body and a post, put or patch method. *)
Theorem table_names (apis : list api) (name : string) :
  TypeMap.has (collectTypes apis) name = true
  <-> exists a, In a apis
                /\ (name = responseName a
                    \/ (registersRequest a = true /\ name = requestName a)).
Proof.
  split.
  - intro Hhas.
    destruct (registerTypes_all_has_origin apis name TypeMap.empty Hhas)
      as [Hempty|Horigin]; [discriminate | exact Horigin].
  - intros (a & Hin & [->|[Hgate ->]]).
    + now apply collectTypes_response_has.
    + apply in_split in Hin as (before & after & ->).
      rewrite collectTypes_app. cbn [fold_left].
      destruct (proj1 (has_true _ _)
                  (registerTypes_request_has (collectTypes before) a Hgate))
        as [v Hv].
      apply has_true. exists v. now apply registerTypes_all_keep.
Qed.

Lemma table_names_witness :
  In optionsUsers [getPosts; optionsUsers]
  /\ TypeMap.has (collectTypes [getPosts; optionsUsers]) "UsersResponse"
     = true.
Proof.
  assert (Hin : In optionsUsers [getPosts; optionsUsers])
    by (right; left; reflexivity).
  split; [exact Hin|].
  apply (proj2 (table_names [getPosts; optionsUsers] "UsersResponse")).
  exists optionsUsers. split; [exact Hin|]. left. reflexivity.
Defined.

(** ** Further properties of handler generation *)

(** X9. What the handler callback does is decided by the method, compared
    without regard to letter case, and by the status code.  It returns
    nothing exactly when the method is none of get, post, put, patch and
    delete.  It throws exactly when the method is post, put, patch or delete
    and the status code (200 when absent) cannot be converted to a string.
    It returns a handler text in the remaining case: a handled method whose
    status code, where it is printed, converts. *)
Theorem handler_result_by_method (a : api) :
  (handler a = Normal None
   <-> includes handledMethods (toLowerCase (method a)) = false)
  /\ (handler a = Throws TypeError
      <-> printsStatus a = true
          /\ toString (statusCodeOrDefault a) = None)
  /\ ((exists text, handler a = Normal (Some text))
      <-> includes handledMethods (toLowerCase (method a)) = true
          /\ handlerCompletes a = true).
Proof.
  split; [|split].
  - split; [|apply handler_unhandled].
    intro Hnone.
    destruct (handler_completes a (handler_normal_completes a _ Hnone))
      as [[Hmethod _]|[_ [text Hsome]]]; [exact Hmethod | congruence].
  - split.
    + intro Hthrows.
      destruct (handlerCompletes a) eqn:Hcompletes.
      * destruct (handler_completes a Hcompletes)
          as [[_ Hnone]|[_ [text Hsome]]]; congruence.
      * unfold handlerCompletes in Hcompletes.
        apply orb_false_iff in Hcompletes as [Hprints Hstatus].
        apply negb_false_iff in Hprints. split; [exact Hprints|].
        now destruct (toString (statusCodeOrDefault a)).
    + intros [Hprints Hstatus]. apply handler_throws.
      unfold handlerCompletes. now rewrite Hprints, Hstatus.
  - split.
    + intros [text Hsome].
      assert (Hcompletes := handler_normal_completes a _ Hsome).
      split; [|exact Hcompletes].
      destruct (handler_completes a Hcompletes)
        as [[_ Hnone]|[Hmethod _]]; [congruence | exact Hmethod].
    + intros [Hmethod Hcompletes].
      destruct (handler_completes a Hcompletes)
        as [[Hnot _]|[_ Hsome]]; [congruence | exact Hsome].
Qed.

Lemma handler_result_by_method_witness :
  includes handledMethods (toLowerCase (method optionsUsers)) = false
  /\ handler optionsUsers = Normal None
  /\ printsStatus postUsersOddStatus = true
  /\ toString (statusCodeOrDefault postUsersOddStatus) = None
  /\ handler postUsersOddStatus = Throws TypeError.
Proof.
  split; [reflexivity|]. split.
  - apply (proj2 (proj1 (handler_result_by_method optionsUsers))).
    reflexivity.
  - split; [reflexivity|]. split; [reflexivity|].
    apply (proj2 (proj1 (proj2 (handler_result_by_method
                                  postUsersOddStatus)))).
    split; reflexivity.
Defined.

Lemma generateHandlers_document (apis : list api) :
  generateHandlers apis = mapNormal handlersDocument (handlersBody apis).
Proof.
  unfold generateHandlers, handlersBody.
  now destruct (mapThrowing handler apis).
Qed.

(** X10. An endpoint without handler is not taken out of the generated
    array: alone it leaves the array body empty, and before other endpoints
    it leaves an empty element, so the body opens with the separating
    comma (and the call throws when the handlers of the others do). *)
Theorem skipped_endpoint_leaves_empty_element (a : api) (rest : list api) :
  includes handledMethods (toLowerCase (method a)) = false ->
  generateHandlers [a] = Normal (handlersDocument "")
  /\ (rest <> [] ->
      generateHandlers (a :: rest)
      = mapNormal (fun body => handlersDocument ("," ++ nl ++ nl ++ body))
          (handlersBody rest)).
Proof.
  intro Hmethod.
  assert (Hhandler : handler a = Normal None)
    by now apply handler_unhandled.
  rewrite !generateHandlers_document. unfold handlersBody.
  cbn [mapThrowing]. rewrite Hhandler. split; [reflexivity|].
  intro Hrest. destruct rest as [|b rest]; [congruence|].
  destruct (mapThrowing handler (b :: rest)) as [results|e] eqn:Hresults;
    [|reflexivity].
  cbn [mapNormal map]. destruct results as [|r results].
  - cbn [mapThrowing] in Hresults. destruct (handler b); [|discriminate].
    destruct (mapThrowing handler rest); discriminate.
  - cbn [map]. now rewrite join_cons_cons.
Qed.

Lemma skipped_endpoint_leaves_empty_element_witness :
  includes handledMethods (toLowerCase (method optionsUsers)) = false
  /\ generateHandlers [optionsUsers] = Normal (handlersDocument "")
  /\ generateHandlers [optionsUsers; getPosts]
     = mapNormal (fun body => handlersDocument ("," ++ nl ++ nl ++ body))
         (handlersBody [getPosts]).
Proof.
  split; [reflexivity|].
  destruct (skipped_endpoint_leaves_empty_element optionsUsers [getPosts]
              eq_refl) as [Halone Hbefore].
  split; [exact Halone|]. apply Hbefore. discriminate.
Defined.

Lemma replaceParams_plain_prefix (pre rest : string) :
  includesChar pre "{" = false ->
  replaceParams None (pre ++ rest) = pre ++ replaceParams None rest.
Proof.
  induction pre as [|c r IH]; [reflexivity|].
  cbn [includesChar append]. intro Hnone.
  apply orb_false_iff in Hnone as [Hc Hr].
  cbn [replaceParams]. now rewrite Hc, IH.
Qed.

(** X11. A path without an opening brace is passed to the handler as it
    is. *)
Theorem path_without_brace_is_kept (path : string) :
  includesChar path "{" = false -> replaceParams None path = path.
Proof.
  intro Hnone.
  rewrite <- (append_empty_r path) at 1.
  rewrite replaceParams_plain_prefix by exact Hnone.
  cbn [replaceParams]. apply append_empty_r.
Qed.

Lemma path_without_brace_is_kept_witness :
  includesChar "/api/users/:id" "{" = false
  /\ replaceParams None "/api/users/:id" = "/api/users/:id".
Proof.
  split; [reflexivity|].
  apply path_without_brace_is_kept. reflexivity.
Defined.

Lemma replaceParams_pending_word (word : string) :
  forall pending rest,
    allChars isWordChar word = true ->
    pending ++ word <> "" ->
    replaceParams (Some pending) (word ++ String "}" rest)
    = ":" ++ pending ++ word ++ replaceParams None rest.
Proof.
  induction word as [|c r IH]; intros pending rest Hword Hnonempty.
  - rewrite append_empty_r in Hnonempty.
    apply String.eqb_neq in Hnonempty.
    cbn [append replaceParams]. rewrite Hnonempty.
    change (isWordChar "}") with false. cbn.
    reflexivity.
  - cbn [allChars] in Hword. apply andb_true_iff in Hword as [Hc Hr].
    cbn [append replaceParams]. rewrite Hc.
    rewrite IH; [|exact Hr|].
    + now rewrite !append_assoc.
    + destruct pending; discriminate.
Qed.

(** X12. A placeholder [{name}] made of one or more word characters is
    rewritten to the runtime parameter [:name]; the text before it, when it
    holds no opening brace, is kept, and the rewriting goes on behind the
    closing brace. *)
Theorem placeholder_becomes_parameter (pre name rest : string) :
  includesChar pre "{" = false ->
  allChars isWordChar name = true ->
  name <> "" ->
  replaceParams None (pre ++ "{" ++ name ++ "}" ++ rest)
  = pre ++ ":" ++ name ++ replaceParams None rest.
Proof.
  intros Hpre Hname Hnonempty.
  rewrite replaceParams_plain_prefix by exact Hpre. f_equal.
  change (replaceParams None ("{" ++ name ++ "}" ++ rest))
    with (replaceParams (Some "") (name ++ String "}" rest)).
  now rewrite replaceParams_pending_word.
Qed.

Lemma placeholder_becomes_parameter_witness :
  includesChar "/api/users/" "{" = false
  /\ allChars isWordChar "id" = true
  /\ replaceParams None ("/api/users/" ++ "{" ++ "id" ++ "}" ++ "/posts")
     = "/api/users/" ++ ":" ++ "id" ++ "/posts".
Proof.
  split; [reflexivity|]. split; [reflexivity|].
  apply (placeholder_becomes_parameter "/api/users/" "id" "/posts");
    [reflexivity | reflexivity | discriminate].
Defined.

(** X13. The handler of a get endpoint depends on the method, the path and
    the response only: the status code and the request body are not used. *)
Theorem get_handler_ignores_status_and_body (a b : api) :
  toLowerCase (method a) = "get" ->
  method a = method b ->
  path a = path b ->
  response a = response b ->
  handler a = handler b.
Proof.
  intros Hget Hmethod Hpath Hresponse.
  unfold handler. rewrite <- Hmethod, <- Hpath, <- Hresponse, Hget.
  reflexivity.
Qed.

Lemma get_handler_ignores_status_and_body_witness :
  handler (mkApi "GET" "/api/users" VUndefined (VArr []) VUndefined)
  = handler (mkApi "GET" "/api/users" (VStr "x") (VArr []) (VNum 404)).
Proof.
  apply get_handler_ignores_status_and_body; reflexivity.
Defined.

(** ** Further properties of the run *)

(** X14. The run generates its two documents exactly when the [apis]
    property of the specification is an array each of whose elements has a
    string [method] and a string [path], and every endpoint whose handler
    prints a status code has one that converts to a string. *)
Theorem run_succeeds_iff (spec : value) :
  (exists handlersCode typesCode,
      main spec = Generated handlersCode typesCode)
  <-> exists items apis,
        getProp spec "apis" = VArr items
        /\ forallb hasStringMethodAndPath items = true
        /\ destructureAll items = Some apis
        /\ forallb handlerCompletes apis = true.
Proof.
  split.
  - intros (handlersCode & typesCode & Hmain). unfold main in Hmain.
    destruct spec; try discriminate;
      destruct (getProp _ "apis") as [| | | | |found|] eqn:Hapis;
      try discriminate;
      (destruct (destructureAll found) as [apis|] eqn:Hall; [|discriminate]);
      (destruct (generateHandlers apis) as [code|e] eqn:Hcode;
       [|discriminate]);
      exists found, apis; (split; [reflexivity|]);
      (split; [apply destructureAll_some_iff; now exists apis|]);
      (split; [exact Hall|]);
      apply generateHandlers_normal_iff; now exists code.
  - intros (items & apis & Hapis & _ & Hall & Hcompletes).
    apply generateHandlers_normal_iff in Hcompletes as [code Hcode].
    exists code, (generateTypes apis).
    unfold main.
    destruct spec; try discriminate; now rewrite Hapis, Hall, Hcode.
Qed.

Lemma run_succeeds_iff_witness :
  exists handlersCode typesCode,
    main specWithoutResponse = Generated handlersCode typesCode.
Proof.
  apply (proj2 (run_succeeds_iff specWithoutResponse)).
  exists [VObj [("method", VStr "GET"); ("path", VStr "/api/users")]],
    [mkApi "GET" "/api/users" VUndefined VUndefined VUndefined].
  repeat split.
Defined.

(** X15. The run ends with the script's own format error exactly when the
    specification is not null and its [apis] property is not an array;
    missing, null and non-array values of [apis] all count. *)
Theorem run_reports_format_error_iff (spec : value) :
  main spec = Exit1 InvalidFormat
  <-> spec <> VNull /\ spec <> VUndefined
      /\ isArray (getProp spec "apis") = false.
Proof.
  split.
  - intro Hmain. unfold main in Hmain.
    destruct spec; try discriminate;
      (split; [discriminate|]; split; [discriminate|]);
      destruct (getProp _ "apis") as [| | | | |found|] eqn:Hapis;
      try reflexivity;
      (destruct (destructureAll found) as [apis|]; [|discriminate]);
      destruct (generateHandlers apis) as [code|e] eqn:Hcode;
      try discriminate;
      apply generateHandlers_throws_TypeError in Hcode; congruence.
  - intros (Hnull & Hundefined & Harray). unfold main.
    destruct spec; try congruence;
      destruct (getProp _ "apis"); try reflexivity; discriminate.
Qed.

Lemma run_reports_format_error_iff_witness :
  main (VObj [("apis", VNull)]) = Exit1 InvalidFormat.
Proof.
  apply (proj2 (run_reports_format_error_iff (VObj [("apis", VNull)]))).
  split; [discriminate|]. split; [discriminate | reflexivity].
Defined.
